(** * The D&D monster pipeline: client, task stages and driver

    A shallow embedding of [src/pipeline/transformation/models.py],
    [api_client.py], [tasks.py] and [main.py], followed by the properties
    of the sampler, the normalisation of detail payloads, the enricher,
    the persister and the driver. *)

From Stdlib Require Import QArith Ascii String.
From stdpp Require Import base option list strings gmap pretty.

Set Warnings "-register-all".

Local Open Scope string_scope.
Local Open Scope Z_scope.

(** ** Python values as they come out of [response.json()] *)

(** A decoded JSON document.  A number with a fraction or an exponent is
    kept as the exact rational it denotes; an object keeps the order of
    its keys, as a Python [dict] does, and a key is looked up at its
    first occurrence. Text is held as UTF-8 bytes. *)
Inductive json : Type :=
  | JNull
  | JBool (b : bool)
  | JInt (n : Z)
  | JFloat (q : Q)
  | JStr (s : string)
  | JList (l : list json)
  | JDict (d : list (string * json)).

Abbreviation dict := (list (string * json)).

(** The exception classes that the pipeline can see.  [Exception_ msg cause]
    is the plain [Exception(f"msg: {cause}")] that the client raises from
    its handlers. *)
Inductive exn : Type :=
  | ValueError (msg : string)
  | TypeError
  | AttributeError
  | KeyError
  | IndexError
  | ValidationError
  | OSError
  | UnicodeEncodeError
  | RequestException
  | Exception_ (msg : string) (cause : exn).

Inductive result (A : Type) : Type :=
  | Ok (a : A)
  | Raise (e : exn).
Arguments Ok {A} a.
Arguments Raise {A} e.

Global Instance result_ret : MRet result := λ A a, Ok a.
Global Instance result_bind : MBind result := λ A B f r,
  match r with Ok a => f a | Raise e => Raise e end.
Global Instance result_fmap : FMap result := λ A B f r,
  match r with Ok a => Ok (f a) | Raise e => Raise e end.

(** [try: body except Exception as e: raise Exception(f"msg: {e}")] *)
Definition reraise {A} (msg : string) (body : result A) : result A :=
  match body with Ok a => Ok a | Raise e => Raise (Exception_ msg e) end.

(** [bool(v)], the test behind [if v] and [not v]. *)
Definition truthy (v : json) : bool :=
  match v with
  | JNull => false
  | JBool b => b
  | JInt n => negb (Z.eqb n 0)
  | JFloat q => negb (Z.eqb (Qnum q) 0)
  | JStr s => negb (String.eqb s "")
  | JList l => match l with [] => false | _ => true end
  | JDict d => match d with [] => false | _ => true end
  end.

Fixpoint dict_get (k : string) (d : dict) : option json :=
  match d with
  | [] => None
  | (k', v) :: d' => if String.eqb k k' then Some v else dict_get k d'
  end.

(** [k in d] *)
Definition py_in (k : string) (d : dict) : bool := bool_decide (is_Some (dict_get k d)).

(** [d.get(k)] and [d.get(k, dflt)] *)
Definition py_get (k : string) (d : dict) : json := default JNull (dict_get k d).
Definition py_get_or (k : string) (dflt : json) (d : dict) : json :=
  default dflt (dict_get k d).

(** [v.get(k)] on a value that need not be a dict. *)
Definition attr_get (k : string) (v : json) : result json :=
  match v with
  | JDict d => Ok (py_get k d)
  | _ => Raise AttributeError
  end.

Definition attr_get_or (k : string) (dflt : json) (v : json) : result json :=
  match v with
  | JDict d => Ok (py_get_or k dflt d)
  | _ => Raise AttributeError
  end.

(** [isinstance(v, list)] and [isinstance(v, int)]; [bool] is a subclass
    of [int]. *)
Definition is_list (v : json) : bool :=
  match v with JList _ => true | _ => false end.
Definition is_int (v : json) : bool :=
  match v with JInt _ | JBool _ => true | _ => false end.

(** [for x in v]: the items that the loop visits.  A string is visited
    byte by byte here rather than by code point; the loops of the pipeline
    stop at the first item of a string whatever it holds. *)
Definition py_iter (v : json) : result (list json) :=
  match v with
  | JList l => Ok l
  | JDict d => Ok (JStr <$> d.*1)
  | JStr s => Ok ((λ c, JStr (String c "")) <$> String.list_ascii_of_string s)
  | _ => Raise TypeError
  end.

(** [needle in hay] on strings. *)
Fixpoint str_contains (needle hay : string) : bool :=
  String.prefix needle hay ||
  match hay with
  | EmptyString => false
  | String _ hay' => str_contains needle hay'
  end.

(** ** models.py *)

Record Action := mkAction { action_name : string; action_desc : string }.

Record Monster := mkMonster {
  name : string;
  hit_points : option Z;
  armor_class : option Z;
  actions : list Action
}.

Record MonsterSummary := mkSummary {
  index : string;
  summary_name : string;
  url : string
}.

Record APIResponse := mkAPIResponse {
  count : Z;
  results : list MonsterSummary
}.

Global Instance Action_eq_dec : EqDecision Action.
Proof. solve_decision. Defined.
Global Instance Monster_eq_dec : EqDecision Monster.
Proof. solve_decision. Defined.
Global Instance MonsterSummary_eq_dec : EqDecision MonsterSummary.
Proof. solve_decision. Defined.

(** ** The world the client acts on *)

(** What one GET comes back with: [Failed] stands for everything that
    [requests] reports as a [RequestException] (transport failure,
    time-out, error status, a body that is not JSON). *)
Inductive http_reply : Type :=
  | Failed
  | Body (v : json).

Definition loc := nat.

(** How a [json.dump] into an open file ends: it completes, or it raises
    [e] (a character that cannot be encoded, a full device) after
    [written] characters of the text have gone out. *)
Inductive dump_outcome : Type :=
  | Completes
  | Fails (written : nat) (e : exn).

(** [files] is the file system as the pipeline sees it (path to content)
    and [unwritable] the paths that cannot be opened for writing;
    [remote i u] is the reply to the [i]-th request when it asks for [u],
    and [sent] the requests issued so far; [tape] feeds the random number
    generator; [heap] holds the list objects whose identity matters;
    [dump_fault p text] tells how dumping [text] into the file [p] ends. *)
Record State := mkState {
  files : gmap string string;
  unwritable : gset string;
  remote : nat → string → http_reply;
  sent : list string;
  tape : list nat;
  heap : gmap loc (list MonsterSummary);
  dump_fault : string → string → dump_outcome
}.

(** A computation that reads and updates the world and may raise. *)
Definition M (A : Type) : Type := State → result A * State.

Global Instance M_ret : MRet M := λ A a st, (Ok a, st).
Global Instance M_bind : MBind M := λ A B f c st,
  match c st with
  | (Ok a, st') => f a st'
  | (Raise e, st') => (Raise e, st')
  end.

Definition raise {A} (e : exn) : M A := λ st, (Raise e, st).

Definition lift {A} (r : result A) : M A := λ st, (r, st).

(** The outcome of [c] as a value: the body of a [try]. *)
Definition attempt {A} (c : M A) : M (result A) := λ st,
  let '(r, st') := c st in (Ok r, st').

(** [except Exception as e: raise Exception(f"msg: {e}")] *)
Definition rewrap {A} (msg : string) (c : M A) : M A := λ st,
  let '(r, st') := c st in (reraise msg r, st').

(** [except requests.RequestException as e: raise Exception(f"msg: {e}")]:
    any other exception passes through. *)
Definition rewrap_request {A} (msg : string) (c : M A) : M A := λ st,
  match c st with
  | (Raise RequestException, st') => (Raise (Exception_ msg RequestException), st')
  | other => other
  end.

(** [self.session.get(u, timeout=self.timeout)], [raise_for_status()] and
    [response.json()]. *)
Definition http_get (u : string) : M json := λ st,
  let st' := mkState (files st) (unwritable st) (remote st) (sent st ++ [u])
                     (tape st) (heap st) (dump_fault st) in
  match remote st (length (sent st)) u with
  | Body v => (Ok v, st')
  | Failed => (Raise RequestException, st')
  end.

(** [randbelow(n)]: the next number of the tape, brought below [n]. *)
Definition randbelow (n : nat) : M nat := λ st,
  let st' := mkState (files st) (unwritable st) (remote st) (sent st)
                     (tail (tape st)) (heap st) (dump_fault st) in
  (Ok (Nat.modulo (hd 0%nat (tape st)) n), st').

(** A new list object. *)
Definition new_list (l : list MonsterSummary) : M loc := λ st,
  let r := fresh (dom (heap st)) in
  (Ok r, mkState (files st) (unwritable st) (remote st) (sent st) (tape st)
                 (<[r := l]> (heap st)) (dump_fault st)).

Definition read_list (r : loc) : M (list MonsterSummary) := λ st,
  match heap st !! r with
  | Some l => (Ok l, st)
  | None => (Raise TypeError, st)
  end.

(** [Path(p).exists()] *)
Definition file_exists (p : string) (st : State) : bool :=
  bool_decide (is_Some (files st !! p)).

(** [open(p, 'w', encoding='utf-8')]: the file is created, or emptied when
    it is there already. *)
Definition open_for_writing (p : string) : M unit := λ st,
  if bool_decide (p ∈ unwritable st) then (Raise OSError, st)
  else (Ok (), mkState (<[p := ""]> (files st)) (unwritable st) (remote st)
                       (sent st) (tape st) (heap st) (dump_fault st)).

(** [json.dump(data, f, ...)] into the file opened at [p], for data whose
    text is [content], and the close at the end of the [with] block: when
    the dump raises, what has been written by then stays in the file. *)
Definition dump_text (p content : string) : M unit := λ st,
  match dump_fault st p content with
  | Completes =>
      (Ok (), mkState (<[p := content]> (files st)) (unwritable st) (remote st)
                      (sent st) (tape st) (heap st) (dump_fault st))
  | Fails written e =>
      (Raise e,
       mkState (<[p := String.substring 0 written content]> (files st))
               (unwritable st) (remote st) (sent st) (tape st) (heap st)
               (dump_fault st))
  end.

(** [l[:limit]] *)
Definition slice_to {A} (limit : Z) (l : list A) : list A :=
  if 0 <=? limit then take (Z.to_nat limit) l
  else take (Z.to_nat (Z.of_nat (length l) + limit)) l.

(** ** [random.sample] of the standard library *)

(** The selection loop over a copy of the population: draw a position
    among the [live] first items, take what is there, and move the last
    live item into the vacancy. *)
Fixpoint sample_loop {A} (pool : list A) (live todo : nat) : M (list A) :=
  match todo with
  | O => mret []
  | S todo' =>
      j ← randbelow live;
      match pool !! j, pool !! (live - 1)%nat with
      | Some x, Some y =>
          rest ← sample_loop (<[j := y]> pool) (live - 1) todo';
          mret (x :: rest)
      | _, _ => raise IndexError
      end
  end.

Definition random_sample {A} (population : list A) (k : Z) : M (list A) :=
  if (0 <=? k) && (k <=? Z.of_nat (length population)) then
    sample_loop population (length population) (Z.to_nat k)
  else raise (ValueError "Sample larger than population or is negative").

(** ** [json.dump(data, f, indent=2, ensure_ascii=False)] on dumped monsters *)

Definition dquote : ascii := "034"%char.
Definition backslash : ascii := "092"%char.
Definition newline : ascii := "010"%char.

Definition hex_digit (n : nat) : ascii :=
  default "0"%char (String.get n "0123456789abcdef").

(** One character inside a string literal: the quote, the backslash and
    the control characters are escaped, everything else is written as it
    is. *)
Definition escape_char (c : ascii) : string :=
  let n := nat_of_ascii c in
  if (n =? 34)%nat then String backslash (String dquote "")
  else if (n =? 92)%nat then String backslash (String backslash "")
  else if (n =? 8)%nat then String backslash "b"
  else if (n =? 12)%nat then String backslash "f"
  else if (n =? 10)%nat then String backslash "n"
  else if (n =? 13)%nat then String backslash "r"
  else if (n =? 9)%nat then String backslash "t"
  else if (n <? 32)%nat then
    String backslash
      ("u00" +:+ String (hex_digit (n / 16)) (String (hex_digit (n mod 16)) ""))
  else String c "".

Fixpoint escape (s : string) : string :=
  match s with
  | EmptyString => ""
  | String c s' => escape_char c +:+ escape s'
  end.

Definition encode_str (s : string) : string :=
  String dquote (escape s +:+ String dquote "").

Definition encode_optional_int (o : option Z) : string :=
  match o with Some n => pretty n | None => "null" end.

(** A line break followed by the indentation of nesting depth [level]. *)
Definition nl (level : nat) : string :=
  String newline (string_of_list_ascii (replicate (2 * level) " "%char)).

(** A non-empty list or dict at depth [level], between [opening] and
    [closing]; an empty list is written [[]]. *)
Fixpoint join (sep : string) (items : list string) : string :=
  match items with
  | [] => ""
  | [x] => x
  | x :: rest => x +:+ sep +:+ join sep rest
  end.

Definition container (opening closing : string) (level : nat)
    (items : list string) : string :=
  match items with
  | [] => opening +:+ closing
  | _ => opening +:+ nl (S level) +:+ join ("," +:+ nl (S level)) items
         +:+ nl level +:+ closing
  end.

Definition member (k v : string) : string := encode_str k +:+ ": " +:+ v.

Definition encode_action (level : nat) (a : Action) : string :=
  container "{" "}" level
    [member "name" (encode_str (action_name a));
     member "desc" (encode_str (action_desc a))].

Definition encode_monster (level : nat) (m : Monster) : string :=
  container "{" "}" level
    [member "name" (encode_str (name m));
     member "hit_points" (encode_optional_int (hit_points m));
     member "armor_class" (encode_optional_int (armor_class m));
     member "actions"
       (container "[" "]" (S level) (encode_action (S (S level)) <$> actions m))].

(** The text written for [[monster.model_dump() for monster in monsters]]. *)
Definition encode_monsters (monsters : list Monster) : string :=
  container "[" "]" 0 (encode_monster 1 <$> monsters).

(** ** Vocabulary of the statements *)

(** The payload [d] without its key [k]. *)
Fixpoint dict_remove (k : string) (d : dict) : dict :=
  match d with
  | [] => []
  | (k', v) :: d' =>
      if String.eqb k k' then dict_remove k d' else (k', v) :: dict_remove k d'
  end.

Definition set_hit_points (hp : option Z) (m : Monster) : Monster :=
  mkMonster (name m) hp (armor_class m) (actions m).

Definition set_armor_class (ac : option Z) (m : Monster) : Monster :=
  mkMonster (name m) (hit_points m) ac (actions m).

Definition is_dict (v : json) : bool :=
  match v with JDict _ => true | _ => false end.

(** A reading of numeric strings on which the pipeline can be run: an
    optional sign followed by decimal digits. *)
Fixpoint digits_value (s : string) (acc : Z) : option Z :=
  match s with
  | EmptyString => Some acc
  | String c s' =>
      let n := nat_of_ascii c in
      if (48 <=? n)%nat && (n <=? 57)%nat
      then digits_value s' (10 * acc + Z.of_nat (n - 48))
      else None
  end.

Definition decimal_str_as_int (s : string) : option Z :=
  match s with
  | EmptyString => None
  | String c s' =>
      if Ascii.eqb c "-" then
        (if String.eqb s' "" then None else Z.opp <$> digits_value s' 0)
      else digits_value s 0
  end.

(** ** Fixtures, after the repository's tests *)

Definition goblin_summary : MonsterSummary :=
  mkSummary "goblin" "Goblin" "/api/monsters/goblin".
Definition skeleton_summary : MonsterSummary :=
  mkSummary "skeleton" "Skeleton" "/api/monsters/skeleton".
Definition dragon_summary : MonsterSummary :=
  mkSummary "dragon" "Dragon" "/api/monsters/dragon".

Definition goblin_payload : json :=
  JDict [("name", JStr "Goblin"); ("hit_points", JInt 15);
         ("armor_class", JList [JDict [("type", JStr "natural"); ("value", JInt 12)]]);
         ("actions", JList [JDict [("name", JStr "Scimitar"); ("desc", JStr "slash")]])].

Definition goblin : Monster :=
  mkMonster "Goblin" (Some 15) (Some 12) [mkAction "Scimitar" "slash"].

Definition catalog : json :=
  JDict [("count", JInt 2);
         ("results",
          JList [JDict [("index", JStr "goblin"); ("name", JStr "Goblin");
                        ("url", JStr "/api/monsters/goblin")];
                 JDict [("index", JStr "skeleton"); ("name", JStr "Skeleton");
                        ("url", JStr "/api/monsters/skeleton")]])].

(** What the fetch stage hands over for that catalog. *)
Definition catalog_results : json :=
  JList [JDict [("index", JStr "goblin"); ("name", JStr "Goblin");
                ("url", JStr "/api/monsters/goblin")];
         JDict [("index", JStr "skeleton"); ("name", JStr "Skeleton");
                ("url", JStr "/api/monsters/skeleton")]].

(** A remote that serves the catalog and the goblin, and fails on every
    other request. *)
Definition test_remote : nat → string → http_reply := λ _ u,
  if String.eqb u "https://www.dnd5eapi.co/api/2014/monsters" then Body catalog
  else if String.eqb u "https://www.dnd5eapi.co/api/monsters/goblin"
  then Body goblin_payload
  else Failed.

(** A world in which every request fails, and one in which
    [monsters.json] cannot be written. *)
Definition offline_world : State :=
  mkState ∅ ∅ (λ _ _, Failed) [] [] ∅ (λ _ _, Completes).

Definition read_only_world : State :=
  mkState ∅ {["monsters.json"]} test_remote [] [] ∅ (λ _ _, Completes).

(** A world like the test world in which every dump raises after four
    characters. *)
Definition faulty_world (fs : gmap string string) : State :=
  mkState fs ∅ test_remote [] [3; 1; 4; 1; 5]%nat ∅
          (λ _ _, Fails 4 UnicodeEncodeError).

(** A payload whose second action has no description. *)
Definition ogre_payload : dict :=
  [("name", JStr "Ogre");
   ("actions", JList (JDict <$> [[("name", JStr "Club"); ("desc", JStr "smash")];
                                 [("name", JStr "Javelin")]]))].

Definition test_world (fs : gmap string string)
    (h : gmap loc (list MonsterSummary)) : State :=
  mkState fs ∅ test_remote [] [3; 1; 4; 1; 5]%nat h (λ _ _, Completes).

Section Pipeline.

(** The models are pydantic models in its default (lax) mode.  How a
    numeric string is read as an [int] differs between pydantic releases
    and is left open. *)
Variable str_as_int : string → option Z.

(** A field declared [str]. *)
Definition validate_str (v : json) : result string :=
  match v with
  | JStr s => Ok s
  | _ => Raise ValidationError
  end.

(** A field declared [int]: an int, a bool, a float with no fractional
    part, or a numeric string. *)
Definition validate_int (v : json) : result Z :=
  match v with
  | JInt n => Ok n
  | JBool b => Ok (Z.b2z b)
  | JFloat q =>
      if Z.eqb (Qnum q mod Z.pos (Qden q)) 0 then Ok (Qnum q / Z.pos (Qden q))
      else Raise ValidationError
  | JStr s =>
      match str_as_int s with Some n => Ok n | None => Raise ValidationError end
  | _ => Raise ValidationError
  end.

(** A field declared [Optional[int]]. *)
Definition validate_optional_int (v : json) : result (option Z) :=
  match v with
  | JNull => Ok None
  | _ => Some <$> validate_int v
  end.

(** [Action(name=n, desc=d)] *)
Definition Action_new (n d : json) : result Action :=
  n' ← validate_str n;
  d' ← validate_str d;
  Ok (mkAction n' d').

(** A required field of a model built from the entries of a dict. *)
Definition required (k : string) (d : dict) : result json :=
  match dict_get k d with Some v => Ok v | None => Raise ValidationError end.

(** An [Action] given as a dict inside the dict given to [Monster]. *)
Definition Action_of (v : json) : result Action :=
  match v with
  | JDict d =>
      n ← required "name" d;
      e ← required "desc" d;
      Action_new n e
  | _ => Raise ValidationError
  end.

(** [Monster(name=n, hit_points=hp, armor_class=ac, actions=acts)] with
    [acts] a list of [Action] objects. *)
Definition Monster_new (n hp ac : json) (acts : list Action) : result Monster :=
  n' ← validate_str n;
  hp' ← validate_optional_int hp;
  ac' ← validate_optional_int ac;
  Ok (mkMonster n' hp' ac' acts).

(** A field declared [List[Action]]. *)
Definition validate_actions (v : json) : result (list Action) :=
  match v with
  | JList l => mapM Action_of l
  | _ => Raise ValidationError
  end.

(** [Monster] on the entries of [d] as keyword arguments: [name] is required, the other fields have defaults. *)
Definition Monster_kwargs (d : dict) : result Monster :=
  n ← required "name" d;
  n' ← validate_str n;
  hp' ← from_option validate_optional_int (Ok None) (dict_get "hit_points" d);
  ac' ← from_option validate_optional_int (Ok None) (dict_get "armor_class" d);
  acts ← from_option validate_actions (Ok []) (dict_get "actions" d);
  Ok (mkMonster n' hp' ac' acts).

(** [MonsterSummary] on the entries of [d] as keyword arguments *)
Definition MonsterSummary_kwargs (d : dict) : result MonsterSummary :=
  i ← required "index" d;
  i' ← validate_str i;
  n ← required "name" d;
  n' ← validate_str n;
  u ← required "url" d;
  u' ← validate_str u;
  Ok (mkSummary i' n' u').

(** The same on a value [v] that need not be a mapping. *)
Definition MonsterSummary_of (v : json) : result MonsterSummary :=
  match v with
  | JDict d => MonsterSummary_kwargs d
  | _ => Raise TypeError
  end.

(** An entry of a field declared [List[MonsterSummary]]. *)
Definition validate_summary (v : json) : result MonsterSummary :=
  match v with
  | JDict d => MonsterSummary_kwargs d
  | _ => Raise ValidationError
  end.

(** [APIResponse] on the entries of [v] as keyword arguments *)
Definition APIResponse_of (v : json) : result APIResponse :=
  match v with
  | JDict d =>
      c ← required "count" d;
      c' ← validate_int c;
      r ← required "results" d;
      r' ← match r with
           | JList l => mapM validate_summary l
           | _ => Raise ValidationError
           end;
      Ok (mkAPIResponse c' r')
  | _ => Raise TypeError
  end.

(** [model_dump()] *)
Definition dump_optional_int (o : option Z) : json :=
  match o with Some n => JInt n | None => JNull end.

Definition Action_dump (a : Action) : json :=
  JDict [("name", JStr (action_name a)); ("desc", JStr (action_desc a))].

Definition Monster_dump (m : Monster) : json :=
  JDict [("name", JStr (name m));
         ("hit_points", dump_optional_int (hit_points m));
         ("armor_class", dump_optional_int (armor_class m));
         ("actions", JList (Action_dump <$> actions m))].

Definition MonsterSummary_dump (s : MonsterSummary) : json :=
  JDict [("index", JStr (index s)); ("name", JStr (summary_name s));
         ("url", JStr (url s))].

(** ** api_client.py *)

Definition BASE_URL : string := "https://www.dnd5eapi.co/api/2014".

(** [DnDAPIClient.fetch_monsters_list] *)
Definition fetch_monsters_list (limit : option Z) : M (list MonsterSummary) :=
  rewrap_request "Failed to fetch monsters list"
    (body ← http_get (BASE_URL +:+ "/monsters");
     api_response ← lift (APIResponse_of body);
     match limit with
     | Some n => mret (slice_to n (results api_response))
     | None => mret (results api_response)
     end).

(** The [full_url] of [fetch_monster_details]: a root-relative reference
    gets the host in front. *)
Definition full_url (monster_url : string) : string :=
  if String.prefix "/" monster_url then "https://www.dnd5eapi.co" +:+ monster_url
  else monster_url.

(** [DnDAPIClient.fetch_monster_details] *)
Definition fetch_monster_details (monster_url : string) : M json :=
  rewrap_request ("Failed to fetch monster details from " +:+ full_url monster_url)
    (http_get (full_url monster_url)).

(** [DnDAPIClient.select_random_monsters]: [monsters] is the list object
    handed in, and the result is a list object again. *)
Definition select_random_monsters (monsters : loc) (count : Z) : M loc :=
  items ← read_list monsters;
  if Z.of_nat (length items) <? count then mret monsters
  else
    selected ← random_sample items count;
    new_list selected.

(** [k in v] for a string [k]. *)
Definition py_contains (k : string) (v : json) : result bool :=
  match v with
  | JDict d => Ok (py_in k d)
  | JList l =>
      Ok (existsb (λ x, match x with JStr s => String.eqb s k | _ => false end) l)
  | JStr s => Ok (str_contains k s)
  | _ => Raise TypeError
  end.

(** [v[k]] for a string [k]. *)
Definition py_subscript (k : string) (v : json) : result json :=
  match v with
  | JDict d => match dict_get k d with Some x => Ok x | None => Raise KeyError end
  | _ => Raise TypeError
  end.

(** [v[0]] on a list. *)
Definition py_first (v : json) : result json :=
  match v with
  | JList (x :: _) => Ok x
  | JList [] => Raise IndexError
  | _ => Raise TypeError
  end.

(** The item behind the guard [k in raw and raw[k]]: there when the key is
    present and its value truthy. *)
Definition guarded_item (k : string) (raw : json) : result (option json) :=
  b ← py_contains k raw;
  if b : bool then
    (v ← py_subscript k raw;
     Ok (if truthy v then Some v else None))
  else Ok None.

(** One turn of the loop over [raw_data['actions']]. *)
Definition action_from (action_data : json) : result Action :=
  n ← attr_get_or "name" (JStr "") action_data;
  d ← attr_get_or "desc" (JStr "") action_data;
  Action_new n d.

(** The value bound to the variable [armor_class]. *)
Definition extract_armor_class (raw_data : json) : result json :=
  c ← guarded_item "armor_class" raw_data;
  match c with
  | Some v =>
      if is_list v && truthy v then
        (first ← py_first v;
         attr_get "value" first)
      else if is_int v then Ok v
      else Ok JNull
  | None => Ok JNull
  end.

(** The list bound to the variable [actions]. *)
Definition extract_actions (raw_data : json) : result (list Action) :=
  a ← guarded_item "actions" raw_data;
  match a with
  | Some v => items ← py_iter v; mapM action_from items
  | None => Ok []
  end.

(** [DnDAPIClient.process_monster_data] *)
Definition process_monster_data (raw_data : json) : result Monster :=
  reraise "Failed to process monster data"
    (acts ← extract_actions raw_data;
     ac ← extract_armor_class raw_data;
     hp ← attr_get "hit_points" raw_data;
     n ← attr_get_or "name" (JStr "") raw_data;
     Monster_new n hp ac acts).

(** [DnDAPIClient.save_monsters_to_json] *)
Definition save_monsters_to_json (monsters : list Monster) (filename : string)
    : M string :=
  rewrap "Failed to save monsters to JSON"
    (open_for_writing filename;;
     dump_text filename (encode_monsters monsters);;
     mret filename).

(** ** tasks.py *)

(** The keyword arguments of a task: [limit], [count], [output_file] and
    the task instance [ti], each of which may be left out; [ti] is given by
    its [xcom_pull], from a task id to the value pulled ([JNull] for
    [None]). *)
Record Context := mkContext {
  ctx_limit : option Z;
  ctx_count : option Z;
  ctx_output_file : option string;
  ctx_ti : option (string → json)
}.

(** [context['ti']] *)
Definition get_ti (context : Context) : M (string → json) :=
  match ctx_ti context with
  | Some ti => mret ti
  | None => raise KeyError
  end.

Definition fetch_monsters_task (context : Context) : M json :=
  monsters_list ← fetch_monsters_list (ctx_limit context);
  mret (JList (MonsterSummary_dump <$> monsters_list)).

Definition select_random_monsters_task (context : Context) : M json :=
  let count := default 5 (ctx_count context) in
  ti ← get_ti context;
  let monsters_data := ti "fetch_monsters" in
  if negb (truthy monsters_data) then
    raise (ValueError "No monster data received from fetch_monsters task")
  else
    monsters ← lift (items ← py_iter monsters_data; mapM MonsterSummary_of items);
    monsters_list ← new_list monsters;
    selected_monsters ← select_random_monsters monsters_list count;
    selected ← read_list selected_monsters;
    mret (JList (MonsterSummary_dump <$> selected)).

(** The body of the [try] in the loop of [fetch_monster_details_task]. *)
Definition details_body (monster_summary : MonsterSummary) : M Monster :=
  raw_data ← fetch_monster_details (url monster_summary);
  lift (process_monster_data raw_data).

(** The loop itself: [detailed_monsters] grows by one for every summary
    whose body runs through, and a summary whose body raises is passed
    over. *)
Fixpoint details_loop (selected_monsters : list MonsterSummary)
    (detailed_monsters : list Monster) : M (list Monster) :=
  match selected_monsters with
  | [] => mret detailed_monsters
  | monster_summary :: rest =>
      r ← attempt (details_body monster_summary);
      match r with
      | Ok monster => details_loop rest (detailed_monsters ++ [monster])
      | Raise _ => details_loop rest detailed_monsters
      end
  end.

Definition fetch_monster_details_task (context : Context) : M json :=
  ti ← get_ti context;
  let selected_monsters_data := ti "select_random_monsters" in
  if negb (truthy selected_monsters_data) then
    raise (ValueError
      "No selected monsters data received from select_random_monsters task")
  else
    selected_monsters ←
      lift (items ← py_iter selected_monsters_data; mapM MonsterSummary_of items);
    detailed_monsters ← details_loop selected_monsters [];
    mret (JList (Monster_dump <$> detailed_monsters)).

(** [Monster] on the entries of a value that need not be a mapping. *)
Definition Monster_of (v : json) : result Monster :=
  match v with
  | JDict d => Monster_kwargs d
  | _ => Raise TypeError
  end.

Definition save_monsters_task (context : Context) : M string :=
  let output_file := default "monsters.json" (ctx_output_file context) in
  ti ← get_ti context;
  let monsters_data := ti "fetch_monster_details" in
  if negb (truthy monsters_data) then
    raise (ValueError "No monster data received from fetch_monster_details task")
  else
    monsters ← lift (items ← py_iter monsters_data; mapM Monster_of items);
    save_monsters_to_json monsters output_file.

(** ** main.py *)

(** [MockTI]: [xcom_pull] hands back the same data whatever it is asked. *)
Definition MockTI (data : json) : string → json := λ _, data.

(** The four steps inside the [try] of [main]. *)
Definition run_stages : M string :=
  monsters_data ← fetch_monsters_task (mkContext None None None None);
  selected_data ←
    select_random_monsters_task (mkContext None (Some 5) None (Some (MockTI monsters_data)));
  detailed_data ←
    fetch_monster_details_task (mkContext None None None (Some (MockTI selected_data)));
  save_monsters_task
    (mkContext None None (Some "monsters.json") (Some (MockTI detailed_data))).

(** [main]: the exit status and the world it leaves. *)
Definition main (st : State) : Z * State :=
  if file_exists "monsters.json" st then (0, st)
  else
    match run_stages st with
    | (Ok _, st') => (0, st')
    | (Raise _, st') => (1, st')
    end.

(** ** Vocabulary of the statements about the stages *)

(** What the body of the enricher's [try] comes to for each summary in
    turn, every body starting in the world the previous one left. *)
Fixpoint outcomes (selected_monsters : list MonsterSummary) (st : State)
    : list (result Monster) * State :=
  match selected_monsters with
  | [] => ([], st)
  | monster_summary :: rest =>
      let '(r, st1) := details_body monster_summary st in
      let '(rs, st2) := outcomes rest st1 in
      (r :: rs, st2)
  end.

(** The monsters of the outcomes that are not exceptions, in order. *)
Definition successes (rs : list (result Monster)) : list Monster :=
  omap (λ r, match r with Ok m => Some m | Raise _ => None end) rs.

(** The world after [n] more random draws. *)
Definition after_draws (n : nat) (st : State) : State :=
  mkState (files st) (unwritable st) (remote st) (sent st)
          (drop n (tape st)) (heap st) (dump_fault st).

(** The world after a new list object [l] has been made. *)
Definition after_new_list (l : list MonsterSummary) (st : State) : State :=
  mkState (files st) (unwritable st) (remote st) (sent st) (tape st)
          (<[fresh (dom (heap st)) := l]> (heap st)) (dump_fault st).

(** The world after a request for [u] has been sent. *)
Definition after_request (u : string) (st : State) : State :=
  mkState (files st) (unwritable st) (remote st) (sent st ++ [u])
          (tape st) (heap st) (dump_fault st).

(** The world after [content] has been written to [p]. *)
Definition after_write (p content : string) (st : State) : State :=
  mkState (<[p := content]> (files st)) (unwritable st) (remote st) (sent st)
          (tape st) (heap st) (dump_fault st).

(** The address of the catalog, and a well-formed catalog reply that
    announces [c] entries and lists [sums]. *)
Definition catalog_url : string := BASE_URL +:+ "/monsters".

Definition catalog_body (c : Z) (sums : list MonsterSummary) : json :=
  JDict [("count", JInt c); ("results", JList (MonsterSummary_dump <$> sums))].

(** The text under key [k] of an action entry: empty when the key is
    missing, nothing when the value is not a string. *)
Definition text_or_empty (k : string) (e : dict) : option string :=
  match dict_get k e with
  | None => Some ""
  | Some (JStr t) => Some t
  | Some _ => None
  end.

Definition entry_action (e : dict) : option Action :=
  n ← text_or_empty "name" e;
  d ← text_or_empty "desc" e;
  Some (mkAction n d).

(** A computation that, whatever its outcome, leaves every file as it is,
    and with the files the way dumps into them end. *)
Definition keeps_disk {A} (c : M A) : Prop :=
  ∀ st, files (c st).2 = files st ∧ dump_fault (c st).2 = dump_fault st.

(** ** Facts about payloads *)

Lemma dict_get_remove_eq (k : string) (d : dict) :
  dict_get k (dict_remove k d) = None.
Proof.
  induction d as [|[k' v] d IH]; simpl; [done|].
  destruct (String.eqb k k') eqn:E; simpl; [done|]. by rewrite E.
Qed.

Lemma dict_get_remove_ne (k k' : string) (d : dict) :
  k ≠ k' → dict_get k' (dict_remove k d) = dict_get k' d.
Proof.
  intros Hne. induction d as [|[k0 v] d IH]; simpl; [done|].
  destruct (String.eqb k k0) eqn:E; simpl.
  - apply String.eqb_eq in E as <-.
    destruct (String.eqb k' k) eqn:E'; [|done].
    apply String.eqb_eq in E'. congruence.
  - by rewrite IH.
Qed.

Lemma py_in_true (k : string) (d : dict) (v : json) :
  dict_get k d = Some v → py_in k d = true.
Proof. intros H. unfold py_in. rewrite H. by apply bool_decide_eq_true_2. Qed.

Lemma py_in_false (k : string) (d : dict) :
  dict_get k d = None → py_in k d = false.
Proof.
  intros H. unfold py_in. rewrite H. apply bool_decide_eq_false_2.
  by intros [? ?].
Qed.

Lemma guarded_item_dict (k : string) (d : dict) :
  guarded_item k (JDict d) =
    Ok (match dict_get k d with
        | Some v => if truthy v then Some v else None
        | None => None
        end).
Proof.
  unfold guarded_item. simpl.
  destruct (dict_get k d) as [v|] eqn:E.
  - by rewrite (py_in_true _ _ _ E).
  - by rewrite (py_in_false _ _ E).
Qed.

Lemma guarded_item_remove_eq (k : string) (d : dict) :
  guarded_item k (JDict (dict_remove k d)) = Ok None.
Proof. by rewrite guarded_item_dict, dict_get_remove_eq. Qed.

Lemma guarded_item_remove_ne (k k' : string) (d : dict) :
  k ≠ k' → guarded_item k' (JDict (dict_remove k d)) = guarded_item k' (JDict d).
Proof. intros H. by rewrite !guarded_item_dict, dict_get_remove_ne. Qed.

Lemma py_get_remove_eq (k : string) (d : dict) :
  py_get k (dict_remove k d) = JNull.
Proof. unfold py_get. by rewrite dict_get_remove_eq. Qed.

Lemma py_get_remove_ne (k k' : string) (d : dict) :
  k ≠ k' → py_get k' (dict_remove k d) = py_get k' d.
Proof. intros H. unfold py_get. by rewrite dict_get_remove_ne. Qed.

Lemma py_get_or_remove_ne (k k' : string) (v : json) (d : dict) :
  k ≠ k' → py_get_or k' v (dict_remove k d) = py_get_or k' v d.
Proof. intros H. unfold py_get_or. by rewrite dict_get_remove_ne. Qed.

(** What [process_monster_data] does on a dict, step by step. *)
Lemma process_dict (d : dict) :
  process_monster_data (JDict d) =
    reraise "Failed to process monster data"
      (acts ← extract_actions (JDict d);
       ac ← extract_armor_class (JDict d);
       Monster_new (py_get_or "name" (JStr "") d) (py_get "hit_points" d) ac acts).
Proof. reflexivity. Qed.

Lemma extract_actions_remove (k : string) (d : dict) :
  k ≠ "actions" →
  extract_actions (JDict (dict_remove k d)) = extract_actions (JDict d).
Proof. intros H. unfold extract_actions. by rewrite guarded_item_remove_ne. Qed.

Lemma extract_armor_class_remove_ne (k : string) (d : dict) :
  k ≠ "armor_class" →
  extract_armor_class (JDict (dict_remove k d)) = extract_armor_class (JDict d).
Proof. intros H. unfold extract_armor_class. by rewrite guarded_item_remove_ne. Qed.

Lemma extract_armor_class_remove_eq (d : dict) :
  extract_armor_class (JDict (dict_remove "armor_class" d)) = Ok JNull.
Proof. unfold extract_armor_class. by rewrite guarded_item_remove_eq. Qed.

(** The variable [armor_class] as a function of the raw field. *)
Lemma extract_armor_class_dict (d : dict) :
  extract_armor_class (JDict d) =
    match dict_get "armor_class" d with
    | Some (JList (x :: _)) => attr_get "value" x
    | Some (JInt n) => Ok (if Z.eqb n 0 then JNull else JInt n)
    | Some (JBool b) => Ok (if b then JBool true else JNull)
    | _ => Ok JNull
    end.
Proof.
  unfold extract_armor_class. rewrite guarded_item_dict.
  destruct (dict_get "armor_class" d) as [[| [] |n|q|s|[|x l]|[|kv e]]|]; simpl; try done.
  - by destruct (Z.eqb n 0).
  - by destruct (negb _).
  - by destruct (negb _).
Qed.

Lemma Monster_new_hit_points_zero (n ac : json) (acts : list Action) :
  Monster_new n (JInt 0) ac acts =
    set_hit_points (Some 0) <$> Monster_new n JNull ac acts.
Proof.
  unfold Monster_new. destruct (validate_str n); simpl; [|done].
  by destruct (validate_optional_int ac).
Qed.

Lemma Monster_new_armor_class_int (n hp : json) (k : Z) (acts : list Action) :
  Monster_new n hp (JInt k) acts =
    set_armor_class (Some k) <$> Monster_new n hp JNull acts.
Proof.
  unfold Monster_new. destruct (validate_str n); simpl; [|done].
  by destruct (validate_optional_int hp).
Qed.

Lemma Monster_new_hit_points_null (n ac : json) (acts : list Action) (m : Monster) :
  Monster_new n JNull ac acts = Ok m → hit_points m = None.
Proof.
  unfold Monster_new. destruct (validate_str n); simpl; [|done].
  destruct (validate_optional_int ac); simpl; [|done]. by intros [= <-].
Qed.

Lemma Monster_new_armor_class_null (n hp : json) (acts : list Action) (m : Monster) :
  Monster_new n hp JNull acts = Ok m → armor_class m = None.
Proof.
  unfold Monster_new. destruct (validate_str n); simpl; [|done].
  destruct (validate_optional_int hp); simpl; [|done]. by intros [= <-].
Qed.

Lemma fmap_Ok {A B} (f : A → B) (a : A) : f <$> Ok a = Ok (f a).
Proof. reflexivity. Qed.

Lemma fmap_Raise {A B} (f : A → B) (e : exn) : f <$> Raise e = Raise e.
Proof. reflexivity. Qed.

Lemma reraise_fmap {A B} (msg : string) (f : A → B) (r : result A) :
  reraise msg (f <$> r) = f <$> reraise msg r.
Proof. by destruct r. Qed.

(** ** Normalisation of a detail payload *)

Lemma process_without_hit_points (d : dict) (hp : json) :
  dict_get "hit_points" d = Some hp →
  process_monster_data (JDict d) =
    reraise "Failed to process monster data"
      (acts ← extract_actions (JDict (dict_remove "hit_points" d));
       ac ← extract_armor_class (JDict (dict_remove "hit_points" d));
       Monster_new (py_get_or "name" (JStr "") (dict_remove "hit_points" d))
                   hp ac acts).
Proof.
  intros H. rewrite process_dict, extract_actions_remove by done.
  rewrite extract_armor_class_remove_ne, py_get_or_remove_ne by done.
  unfold py_get. by rewrite H.
Qed.

Lemma process_with_armor_class (d : dict) (ac : json) :
  extract_armor_class (JDict d) = Ok ac →
  process_monster_data (JDict d) =
    reraise "Failed to process monster data"
      (acts ← extract_actions (JDict d);
       Monster_new (py_get_or "name" (JStr "") d) (py_get "hit_points" d) ac acts).
Proof.
  intros H. rewrite process_dict, H.
  by destruct (extract_actions (JDict d)).
Qed.

Lemma process_without_armor_class (d : dict) :
  process_monster_data (JDict (dict_remove "armor_class" d)) =
    reraise "Failed to process monster data"
      (acts ← extract_actions (JDict d);
       Monster_new (py_get_or "name" (JStr "") d) (py_get "hit_points" d) JNull acts).
Proof.
  rewrite (process_with_armor_class (dict_remove "armor_class" d) JNull)
    by apply extract_armor_class_remove_eq.
  by rewrite extract_actions_remove, py_get_or_remove_ne, py_get_remove_ne.
Qed.

Lemma process_armor_class_null (d : dict) :
  extract_armor_class (JDict d) = Ok JNull →
  process_monster_data (JDict d) =
    process_monster_data (JDict (dict_remove "armor_class" d)).
Proof.
  intros H.
  by rewrite (process_with_armor_class d JNull H), process_without_armor_class.
Qed.

Lemma process_armor_class_int (d : dict) (k : Z) :
  extract_armor_class (JDict d) = Ok (JInt k) →
  process_monster_data (JDict d) =
    set_armor_class (Some k) <$>
      process_monster_data (JDict (dict_remove "armor_class" d)).
Proof.
  intros H. rewrite (process_with_armor_class d _ H), process_without_armor_class.
  destruct (extract_actions (JDict d)) as [acts|e]; simpl; [|done].
  by rewrite Monster_new_armor_class_int, reraise_fmap.
Qed.

Lemma process_missing_armor_class (d : dict) (m : Monster) :
  process_monster_data (JDict (dict_remove "armor_class" d)) = Ok m →
  armor_class m = None.
Proof.
  rewrite process_without_armor_class.
  destruct (extract_actions _) as [acts|e]; simpl; [|done].
  destruct (Monster_new _ _ _ _) as [m'|e] eqn:E; simpl; [|done].
  intros [= <-]. by eapply Monster_new_armor_class_null.
Qed.

(** C1 (the code departs from it): a payload whose [armor_class] is the
    integer 0 is normalised exactly as the same payload without the
    field, so the stored [armor_class] is the absent-marker and not 0. *)
Theorem armor_class_zero_is_dropped (d : dict) :
  dict_get "armor_class" d = Some (JInt 0) →
  process_monster_data (JDict d) =
    process_monster_data (JDict (dict_remove "armor_class" d))
  ∧ ∀ m, process_monster_data (JDict d) = Ok m → armor_class m = None.
Proof.
  intros H.
  assert (process_monster_data (JDict d) =
          process_monster_data (JDict (dict_remove "armor_class" d))) as E.
  { apply process_armor_class_null. by rewrite extract_armor_class_dict, H. }
  split; [done|]. intros m. rewrite E. apply process_missing_armor_class.
Qed.

(** C3 (amended): when [armor_class] is neither a list nor an integer or
    boolean (null, a float, a string, an object), the payload is normalised
    exactly as if the field were missing, so nothing is raised on account of
    it and the stored [armor_class] is the absent-marker; when it is a list
    whose first entry is not an object, normalisation raises. *)
Theorem unsupported_armor_class_shape (d : dict) (v : json) :
  dict_get "armor_class" d = Some v →
  (is_list v = false → is_int v = false →
     process_monster_data (JDict d) =
       process_monster_data (JDict (dict_remove "armor_class" d))
     ∧ ∀ m, process_monster_data (JDict d) = Ok m → armor_class m = None)
  ∧ (∀ x rest, v = JList (x :: rest) → is_dict x = false →
       ∃ e, process_monster_data (JDict d) =
              Raise (Exception_ "Failed to process monster data" e)).
Proof.
  intros H. split.
  - intros Hl Hi.
    assert (process_monster_data (JDict d) =
            process_monster_data (JDict (dict_remove "armor_class" d))) as E.
    { apply process_armor_class_null. rewrite extract_armor_class_dict, H.
      by destruct v. }
    split; [done|]. intros m. rewrite E. apply process_missing_armor_class.
  - intros x rest -> Hx. rewrite process_dict, extract_armor_class_dict, H.
    destruct (extract_actions (JDict d)) as [acts|e]; simpl; [|by eexists].
    destruct x; simpl in *; try discriminate; by eexists.
Qed.

(** A payload with neither [actions] nor [armor_class]. *)
Lemma process_plain (d : dict) :
  dict_get "actions" d = None →
  dict_get "armor_class" d = None →
  process_monster_data (JDict d) =
    reraise "Failed to process monster data"
      (Monster_new (py_get_or "name" (JStr "") d) (py_get "hit_points" d) JNull []).
Proof.
  intros Ha Hc. rewrite process_dict. unfold extract_actions, extract_armor_class.
  by rewrite !guarded_item_dict, Ha, Hc.
Qed.

(** C4: a payload with [hit_points: 0] is normalised as the same payload
    without the field except that the stored [hit_points] is 0, never the
    absent-marker; a payload with no [hit_points] key and one with
    [hit_points: null] are normalised alike, with the absent-marker.  A
    payload that has a string for a name and neither actions nor armor
    class is normalised to that name with 0, respectively the
    absent-marker, for [hit_points]; so are the bare payloads
    [{"hit_points": 0}], [{"hit_points": null}] and [{}]. *)
Theorem hit_points_zero_and_absent (d : dict) :
  (dict_get "hit_points" d = Some (JInt 0) →
     process_monster_data (JDict d) =
       set_hit_points (Some 0) <$>
         process_monster_data (JDict (dict_remove "hit_points" d))
     ∧ ∀ m, process_monster_data (JDict d) = Ok m → hit_points m = Some 0)
  ∧ (dict_get "hit_points" d = Some JNull →
       process_monster_data (JDict d) =
         process_monster_data (JDict (dict_remove "hit_points" d))
       ∧ ∀ m, process_monster_data (JDict d) = Ok m → hit_points m = None)
  ∧ (dict_get "hit_points" d = None →
       ∀ m, process_monster_data (JDict d) = Ok m → hit_points m = None)
  ∧ (∀ n, dict_get "name" d = Some (JStr n) →
          dict_get "actions" d = None →
          dict_get "armor_class" d = None →
          (dict_get "hit_points" d = Some (JInt 0) →
             process_monster_data (JDict d) = Ok (mkMonster n (Some 0) None []))
          ∧ (dict_get "hit_points" d = Some JNull →
               process_monster_data (JDict d) = Ok (mkMonster n None None []))
          ∧ (dict_get "hit_points" d = None →
               process_monster_data (JDict d) = Ok (mkMonster n None None [])))
  ∧ process_monster_data (JDict [("hit_points", JInt 0)])
    = Ok (mkMonster "" (Some 0) None [])
  ∧ process_monster_data (JDict [("hit_points", JNull)])
    = Ok (mkMonster "" None None [])
  ∧ process_monster_data (JDict []) = Ok (mkMonster "" None None []).
Proof.
  assert (∀ d' m, dict_get "hit_points" d' = None →
            process_monster_data (JDict d') = Ok m → hit_points m = None) as Hnone.
  { intros d' m H. rewrite process_dict. unfold py_get. rewrite H. simpl.
    destruct (extract_actions _) as [acts|e]; simpl; [|done].
    destruct (extract_armor_class _) as [ac|e]; simpl; [|done].
    destruct (Monster_new _ _ _ _) as [m'|e] eqn:E; simpl; [|done].
    intros [= <-]. by eapply Monster_new_hit_points_null. }
  assert (∀ d', process_monster_data (JDict (dict_remove "hit_points" d')) =
            reraise "Failed to process monster data"
              (acts ← extract_actions (JDict (dict_remove "hit_points" d'));
               ac ← extract_armor_class (JDict (dict_remove "hit_points" d'));
               Monster_new (py_get_or "name" (JStr "") (dict_remove "hit_points" d'))
                           JNull ac acts)) as Hrem.
  { intros d'. rewrite process_dict. by rewrite py_get_remove_eq. }
  split; [|split; [|split; [|split; [|repeat split]]]].
  - intros H.
    assert (process_monster_data (JDict d) =
            set_hit_points (Some 0) <$>
              process_monster_data (JDict (dict_remove "hit_points" d))) as E.
    { rewrite (process_without_hit_points d _ H), Hrem.
      destruct (extract_actions _) as [acts|e]; simpl; [|done].
      destruct (extract_armor_class _) as [ac|e]; simpl; [|done].
      by rewrite Monster_new_hit_points_zero, reraise_fmap. }
    split; [done|]. intros m. rewrite E. clear E.
    destruct (process_monster_data _) as [m'|e].
    + rewrite fmap_Ok. by intros [= <-].
    + by rewrite fmap_Raise.
  - intros H.
    assert (process_monster_data (JDict d) =
            process_monster_data (JDict (dict_remove "hit_points" d))) as E.
    { by rewrite (process_without_hit_points d _ H), Hrem. }
    split; [done|]. intros m. rewrite E.
    apply Hnone, dict_get_remove_eq.
  - intros H m. by apply Hnone.
  - intros n Hn Ha Hc.
    rewrite (process_plain d Ha Hc). unfold py_get_or, py_get. rewrite Hn.
    repeat split; by intros ->.
Qed.

(** C5: [armor_class] given as a list whose first entry is an object with
    an integer [value] is stored as that integer, a bare non-zero integer
    as itself, and an empty list, a missing field or a first entry without
    a [value] key as the absent-marker; in each case the rest of the
    payload is normalised as it is without the field. *)
Theorem armor_class_shape_coverage (d : dict) :
  (∀ e rest n,
     dict_get "armor_class" d = Some (JList (JDict e :: rest)) →
     dict_get "value" e = Some (JInt n) →
     process_monster_data (JDict d) =
       set_armor_class (Some n) <$>
         process_monster_data (JDict (dict_remove "armor_class" d)))
  ∧ (∀ n, n ≠ 0 → dict_get "armor_class" d = Some (JInt n) →
       process_monster_data (JDict d) =
         set_armor_class (Some n) <$>
           process_monster_data (JDict (dict_remove "armor_class" d)))
  ∧ (dict_get "armor_class" d = Some (JList []) →
       process_monster_data (JDict d) =
         process_monster_data (JDict (dict_remove "armor_class" d)))
  ∧ (∀ e rest,
       dict_get "armor_class" d = Some (JList (JDict e :: rest)) →
       dict_get "value" e = None →
       process_monster_data (JDict d) =
         process_monster_data (JDict (dict_remove "armor_class" d)))
  ∧ (∀ m, process_monster_data (JDict (dict_remove "armor_class" d)) = Ok m →
       armor_class m = None)
  ∧ process_monster_data (JDict [("armor_class", JList [JDict [("value", JInt 15)]])])
      = Ok (mkMonster "" None (Some 15) [])
  ∧ process_monster_data (JDict [("armor_class", JInt 12)])
      = Ok (mkMonster "" None (Some 12) [])
  ∧ process_monster_data (JDict [("armor_class", JList [])])
      = Ok (mkMonster "" None None [])
  ∧ process_monster_data (JDict []) = Ok (mkMonster "" None None [])
  ∧ process_monster_data (JDict [("armor_class", JList [JDict [("type", JStr "natural")]])])
      = Ok (mkMonster "" None None []).
Proof.
  repeat split; try reflexivity.
  - intros e rest n H Hv. apply process_armor_class_int.
    rewrite extract_armor_class_dict, H. simpl. unfold py_get. by rewrite Hv.
  - intros n Hn H. apply process_armor_class_int.
    rewrite extract_armor_class_dict, H.
    destruct (Z.eqb_spec n 0); [done|reflexivity].
  - intros H. apply process_armor_class_null.
    by rewrite extract_armor_class_dict, H.
  - intros e rest H Hv. apply process_armor_class_null.
    rewrite extract_armor_class_dict, H. simpl. unfold py_get. by rewrite Hv.
  - apply process_missing_armor_class.
Qed.

(** ** The sampler *)

Lemma insert_vacancy {A} (l : list A) (j : nat) (x y : A) :
  l !! j = Some x → l ++ [y] ≡ₚ x :: <[j := y]> l.
Proof.
  intros Hl. apply list_elem_of_split_length in Hl as (l1 & l2 & -> & ->).
  rewrite insert_app_r_alt by lia.
  replace (length l1 - length l1)%nat with 0%nat by lia. simpl.
  rewrite <-app_assoc. simpl.
  rewrite <-!Permutation_middle. by rewrite app_nil_r.
Qed.

(** One turn of the selection loop takes one item out of the live part of
    the pool and leaves the others, in some order. *)
Lemma take_live_vacancy {A} (pool : list A) (live j : nat) (x y : A) :
  (j < live)%nat → pool !! j = Some x → pool !! (live - 1)%nat = Some y →
  take live pool ≡ₚ x :: take (live - 1) (<[j := y]> pool).
Proof.
  intros Hj Hx Hy.
  replace live with (S (live - 1)) at 1 by lia.
  rewrite (take_S_r _ _ _ Hy).
  destruct (decide (j = (live - 1)%nat)) as [->|Hne].
  - rewrite (list_insert_id _ _ _ Hy). simplify_eq.
    symmetry. apply Permutation_cons_append.
  - rewrite take_insert_lt by lia.
    apply insert_vacancy. by rewrite lookup_take_lt by lia.
Qed.

Lemma after_draws_0 (st : State) : after_draws 0 st = st.
Proof. by destruct st. Qed.

Lemma sample_loop_spec {A} (todo : nat) :
  ∀ (pool : list A) (live : nat) (st : State),
    (todo ≤ live)%nat → (live ≤ length pool)%nat →
    ∃ sel, sample_loop pool live todo st = (Ok sel, after_draws todo st)
           ∧ length sel = todo ∧ sel ⊆+ take live pool.
Proof.
  induction todo as [|todo IH]; intros pool live st Htodo Hlive.
  - exists []. rewrite after_draws_0. repeat split. apply submseteq_nil_l.
  - set (j := Nat.modulo (hd 0%nat (tape st)) live).
    assert (j < live)%nat as Hj by (apply Nat.mod_upper_bound; lia).
    destruct (lookup_lt_is_Some_2 pool j) as [x Hx]; [lia|].
    destruct (lookup_lt_is_Some_2 pool (live - 1)) as [y Hy]; [lia|].
    destruct (IH (<[j := y]> pool) (live - 1)%nat
                 (mkState (files st) (unwritable st) (remote st) (sent st)
                          (tail (tape st)) (heap st) (dump_fault st)))
      as (rest & Hrest & Hlen & Hsub); [lia|rewrite length_insert; lia|].
    exists (x :: rest). split; [|split].
    + cbn [sample_loop]. unfold mbind, M_bind at 1. unfold randbelow at 1.
      fold j. rewrite Hx, Hy. unfold mbind, M_bind at 1. rewrite Hrest.
      unfold mret, M_ret. f_equal. unfold after_draws. simpl.
      destruct (tape st); simpl; [by rewrite drop_nil|done].
    + simpl. lia.
    + rewrite (take_live_vacancy pool live j x y) by done.
      by apply submseteq_skip.
Qed.

Lemma random_sample_spec {A} (population : list A) (k : Z) (st : State) :
  0 ≤ k ≤ Z.of_nat (length population) →
  ∃ sel, random_sample population k st = (Ok sel, after_draws (Z.to_nat k) st)
         ∧ length sel = Z.to_nat k ∧ sel ⊆+ population.
Proof.
  intros Hk. unfold random_sample.
  replace ((0 <=? k) && (k <=? Z.of_nat (length population))) with true
    by (symmetry; apply andb_true_iff; split; apply Z.leb_le; lia).
  destruct (sample_loop_spec (Z.to_nat k) population (length population) st)
    as (sel & Hsel & Hlen & Hsub); [lia|lia|].
  exists sel. by rewrite take_ge in Hsub.
Qed.

Lemma random_sample_out_of_range {A} (population : list A) (k : Z) (st : State) :
  k < 0 ∨ Z.of_nat (length population) < k →
  random_sample population k st =
    (Raise (ValueError "Sample larger than population or is negative"), st).
Proof.
  intros Hk. unfold random_sample.
  replace ((0 <=? k) && (k <=? Z.of_nat (length population))) with false; [done|].
  symmetry. apply andb_false_iff.
  destruct Hk; [left|right]; apply Z.leb_gt; lia.
Qed.

Lemma submseteq_NoDup_fmap {A B} (f : A → B) (l k : list A) :
  l ⊆+ k → NoDup (f <$> k) → NoDup (f <$> l).
Proof.
  intros Hsub Hk. apply (fmap_submseteq f) in Hsub.
  apply submseteq_Permutation in Hsub as [rest Hrest].
  rewrite Hrest in Hk. by apply NoDup_app in Hk as [? _].
Qed.

(** C6 (amended): for a count that is not negative, [select_random_monsters]
    returns a list of [min(n, count)] summaries taken from the input, no
    position of the input being taken twice, so that distinct identifiers
    stay distinct; an empty input gives an empty list. *)
Theorem select_random_cardinality (st : State) (r : loc)
    (monsters : list MonsterSummary) (count : Z) :
  heap st !! r = Some monsters →
  0 ≤ count →
  ∃ r' st' selected,
    select_random_monsters r count st = (Ok r', st')
    ∧ heap st' !! r' = Some selected
    ∧ length selected = Nat.min (length monsters) (Z.to_nat count)
    ∧ selected ⊆+ monsters
    ∧ (NoDup (index <$> monsters) → NoDup (index <$> selected))
    ∧ (monsters = [] → selected = []).
Proof.
  intros Hr Hcount. unfold select_random_monsters.
  unfold mbind, M_bind at 1. unfold read_list at 1. rewrite Hr.
  destruct (Z.ltb_spec (Z.of_nat (length monsters)) count) as [Hlt|Hge].
  - exists r, st, monsters. repeat split; try done. lia.
  - destruct (random_sample_spec monsters count st) as (sel & Hsel & Hlen & Hsub);
      [lia|].
    exists (fresh (dom (heap st))), (after_new_list sel (after_draws (Z.to_nat count) st)), sel.
    split; [|split; [|split; [|split; [|split]]]].
    + unfold mbind, M_bind. by rewrite Hsel.
    + simpl. apply lookup_insert_eq.
    + lia.
    + done.
    + by apply submseteq_NoDup_fmap.
    + intros ->. apply submseteq_nil_r in Hsub. done.
Qed.

(** C10: when the input list is shorter than the requested count,
    [select_random_monsters] hands back the very list object it was given
    and leaves the world, that object included, as it was. *)
Theorem select_random_short_returns_input (st : State) (r : loc)
    (monsters : list MonsterSummary) (count : Z) :
  heap st !! r = Some monsters →
  Z.of_nat (length monsters) < count →
  select_random_monsters r count st = (Ok r, st)
  ∧ heap st !! r = Some monsters.
Proof.
  intros Hr Hlt. split; [|done]. unfold select_random_monsters.
  unfold mbind, M_bind. unfold read_list. rewrite Hr.
  by destruct (Z.ltb_spec (Z.of_nat (length monsters)) count); [|lia].
Qed.

(** ** The task stages *)

Lemma bind_Ok {A B} (c : M A) (f : A → M B) (st st' : State) (b : B) :
  (c ≫= f) st = (Ok b, st') →
  ∃ a st1, c st = (Ok a, st1) ∧ f a st1 = (Ok b, st').
Proof.
  unfold mbind, M_bind. destruct (c st) as [[a|e] st1]; [eauto|discriminate].
Qed.

Lemma get_ti_Some (context : Context) (ti : string → json) (st : State) :
  ctx_ti context = Some ti → get_ti context st = (Ok ti, st).
Proof. intros H. unfold get_ti. by rewrite H. Qed.

(** C8: the sampler, the enricher and the persister stage each raise a
    [ValueError] and leave the world untouched (no request, no random draw,
    no file) when the value pulled from the previous stage is falsy, which
    [None] and the empty list are. *)
Theorem stages_need_upstream_data (context : Context) (ti : string → json)
    (st : State) :
  ctx_ti context = Some ti →
  (truthy (ti "fetch_monsters") = false →
     select_random_monsters_task context st =
       (Raise (ValueError "No monster data received from fetch_monsters task"), st))
  ∧ (truthy (ti "select_random_monsters") = false →
       fetch_monster_details_task context st =
         (Raise (ValueError
            "No selected monsters data received from select_random_monsters task"),
          st))
  ∧ (truthy (ti "fetch_monster_details") = false →
       save_monsters_task context st =
         (Raise (ValueError
            "No monster data received from fetch_monster_details task"), st))
  ∧ truthy JNull = false ∧ truthy (JList []) = false.
Proof.
  intros Hti. repeat split.
  - intros H. unfold select_random_monsters_task, mbind, M_bind.
    by rewrite (get_ti_Some _ _ _ Hti), H.
  - intros H. unfold fetch_monster_details_task, mbind, M_bind.
    by rewrite (get_ti_Some _ _ _ Hti), H.
  - intros H. unfold save_monsters_task, mbind, M_bind.
    by rewrite (get_ti_Some _ _ _ Hti), H.
Qed.

(** *** The enricher *)

Lemma summary_round_trip (s : MonsterSummary) :
  MonsterSummary_of (MonsterSummary_dump s) = Ok s.
Proof. by destruct s. Qed.

Lemma summaries_round_trip (sums : list MonsterSummary) :
  mapM MonsterSummary_of (MonsterSummary_dump <$> sums) = Ok sums.
Proof.
  induction sums as [|s sums IH]; [done|].
  cbn [fmap list_fmap mapM]. rewrite summary_round_trip.
  change (mapM MonsterSummary_of (MonsterSummary_dump <$> sums) ≫=
            (λ k, mret (s :: k)) = Ok (s :: sums)).
  by rewrite IH.
Qed.

Lemma summaries_of_dumps (sums : list MonsterSummary) :
  (items ← py_iter (JList (MonsterSummary_dump <$> sums));
   mapM MonsterSummary_of items) = Ok sums.
Proof. exact (summaries_round_trip sums). Qed.

Lemma details_body_world (s : MonsterSummary) (st : State) :
  (details_body s st).2 = after_request (full_url (url s)) st.
Proof.
  unfold details_body, mbind, M_bind, fetch_monster_details, rewrap_request,
    http_get, lift.
  destruct (remote st (length (sent st)) (full_url (url s))); simpl; [done|].
  by destruct (process_monster_data v).
Qed.

(** The loop with its accumulator against the outcomes item by item. *)
Lemma details_loop_outcomes (sums : list MonsterSummary) :
  ∀ (acc : list Monster) (st : State),
    details_loop sums acc st =
      (Ok (acc ++ successes (outcomes sums st).1)%list, (outcomes sums st).2).
Proof.
  induction sums as [|s sums IH]; intros acc st.
  - simpl. unfold successes. simpl. by rewrite app_nil_r.
  - cbn [details_loop outcomes]. unfold mbind, M_bind, attempt.
    destruct (details_body s st) as [[m|e] st1]; rewrite IH;
      destruct (outcomes sums st1) as [rs st2]; simpl; [|done].
    by rewrite <-app_assoc.
Qed.

Lemma outcomes_length (sums : list MonsterSummary) :
  ∀ st, length (outcomes sums st).1 = length sums.
Proof.
  induction sums as [|s sums IH]; intros st; [done|].
  cbn [outcomes]. destruct (details_body s st) as [r st1].
  specialize (IH st1). destruct (outcomes sums st1) as [rs st2].
  simpl in *. by rewrite IH.
Qed.

Lemma outcomes_world (sums : list MonsterSummary) :
  ∀ st, (outcomes sums st).2 =
          mkState (files st) (unwritable st) (remote st)
                  (sent st ++ (full_url ∘ url <$> sums)) (tape st) (heap st)
                  (dump_fault st).
Proof.
  induction sums as [|s sums IH]; intros st.
  - simpl. rewrite app_nil_r. by destruct st.
  - cbn [outcomes]. pose proof (details_body_world s st) as Hw.
    destruct (details_body s st) as [r st1]. simpl in Hw. subst st1.
    specialize (IH (after_request (full_url (url s)) st)).
    destruct (outcomes sums _) as [rs st2]. simpl in *. subst st2.
    by rewrite <-app_assoc.
Qed.

(** C7: handed a non-empty list of summaries, the enricher runs the body
    of its [try] once for every summary, in order, and returns the dumps
    of the monsters of exactly those bodies that did not raise, in the
    same order; it does not raise itself. *)
Theorem enricher_drops_failures (context : Context) (ti : string → json)
    (sums : list MonsterSummary) (st : State) :
  ctx_ti context = Some ti →
  sums ≠ [] →
  ti "select_random_monsters" = JList (MonsterSummary_dump <$> sums) →
  ∃ rs st',
    outcomes sums st = (rs, st')
    ∧ length rs = length sums
    ∧ fetch_monster_details_task context st =
        (Ok (JList (Monster_dump <$> successes rs)), st')
    ∧ sent st' = (sent st ++ (full_url ∘ url <$> sums))%list
    ∧ files st' = files st.
Proof.
  intros Hti Hne Hdata.
  exists (outcomes sums st).1, (outcomes sums st).2.
  split; [by destruct (outcomes sums st)|].
  split; [apply outcomes_length|].
  split; [|by rewrite outcomes_world].
  unfold fetch_monster_details_task. unfold mbind, M_bind at 1.
  rewrite (get_ti_Some _ _ _ Hti), Hdata.
  replace (truthy (JList (MonsterSummary_dump <$> sums))) with true
    by (by destruct sums).
  cbn [negb]. rewrite summaries_of_dumps. unfold lift, mbind, M_bind.
  by rewrite details_loop_outcomes.
Qed.

(** *** The persister *)

Lemma substring_prefix (n : nat) (t : string) :
  String.prefix (String.substring 0 n t) t = true.
Proof.
  revert n. induction t as [|c t IH]; intros [|n]; simpl; try done.
  destruct (ascii_dec c c); [apply IH|done].
Qed.

Lemma prefix_refl (t : string) : String.prefix t t = true.
Proof.
  induction t as [|c t IH]; [done|]. simpl. by destruct (ascii_dec c c).
Qed.

(** [save_monsters_to_json] by cases: the open fails; the dump completes;
    the dump raises. *)
Lemma save_monsters_to_json_outcome (monsters : list Monster) (filename : string)
    (st : State) :
  save_monsters_to_json monsters filename st =
    if bool_decide (filename ∈ unwritable st)
    then (Raise (Exception_ "Failed to save monsters to JSON" OSError), st)
    else match dump_fault st filename (encode_monsters monsters) with
         | Completes =>
             (Ok filename, after_write filename (encode_monsters monsters) st)
         | Fails n e =>
             (Raise (Exception_ "Failed to save monsters to JSON" e),
              after_write filename
                (String.substring 0 n (encode_monsters monsters)) st)
         end.
Proof.
  unfold save_monsters_to_json, rewrap, mbind, M_bind, open_for_writing, dump_text.
  case_bool_decide; [done|]. simpl.
  destruct (dump_fault st filename (encode_monsters monsters)); simpl;
    unfold after_write; by rewrite insert_insert_eq.
Qed.

(** C2 (amended): [save_monsters_to_json] does not look at what is there:
    when the destination names an existing file that can be opened for
    writing, the file is emptied and written into.  If the dump completes
    the file holds the serialised sequence and the path is returned; if
    the dump raises, the file holds what had been written by then, a
    prefix of the serialisation, and the exception is raised again as the
    client's own. *)
Theorem persister_overwrites (monsters : list Monster) (filename old : string)
    (st : State) :
  files st !! filename = Some old →
  filename ∉ unwritable st →
  ∃ written,
    (save_monsters_to_json monsters filename st).2 = after_write filename written st
    ∧ files (save_monsters_to_json monsters filename st).2 !! filename
      = Some written
    ∧ String.prefix written (encode_monsters monsters) = true
    ∧ match dump_fault st filename (encode_monsters monsters) with
      | Completes =>
          written = encode_monsters monsters
          ∧ (save_monsters_to_json monsters filename st).1 = Ok filename
      | Fails n e =>
          written = String.substring 0 n (encode_monsters monsters)
          ∧ (save_monsters_to_json monsters filename st).1
            = Raise (Exception_ "Failed to save monsters to JSON" e)
      end.
Proof.
  intros _ Hw. rewrite save_monsters_to_json_outcome.
  rewrite bool_decide_eq_false_2 by done.
  destruct (dump_fault st filename (encode_monsters monsters)) as [|n e].
  - exists (encode_monsters monsters). simpl.
    repeat split; [apply lookup_insert_eq|apply prefix_refl].
  - exists (String.substring 0 n (encode_monsters monsters)). simpl.
    repeat split; [apply lookup_insert_eq|apply substring_prefix].
Qed.

(** *** The driver *)

Lemma save_monsters_to_json_writes (monsters : list Monster) (filename x : string)
    (st st' : State) :
  save_monsters_to_json monsters filename st = (Ok x, st') →
  file_exists filename st' = true.
Proof.
  rewrite save_monsters_to_json_outcome.
  case_bool_decide; [done|].
  destruct (dump_fault st filename (encode_monsters monsters)); [|done].
  intros [= <- <-].
  unfold file_exists. simpl. apply bool_decide_eq_true_2.
  rewrite lookup_insert_eq. by eexists.
Qed.

Lemma save_monsters_task_writes (context : Context) (x : string) (st st' : State) :
  save_monsters_task context st = (Ok x, st') →
  file_exists (default "monsters.json" (ctx_output_file context)) st' = true.
Proof.
  unfold save_monsters_task. intros (ti & st1 & _ & H)%bind_Ok.
  destruct (negb (truthy (ti "fetch_monster_details"))); [done|].
  apply bind_Ok in H as (monsters & st2 & _ & H).
  by eapply save_monsters_to_json_writes.
Qed.

Lemma run_stages_writes (x : string) (st st' : State) :
  run_stages st = (Ok x, st') → file_exists "monsters.json" st' = true.
Proof.
  unfold run_stages. intros (d1 & st1 & _ & H)%bind_Ok.
  apply bind_Ok in H as (d2 & st2 & _ & H).
  apply bind_Ok in H as (d3 & st3 & _ & H).
  by apply save_monsters_task_writes in H.
Qed.

(** C9: when [monsters.json] exists as the driver starts, it returns 0 and
    the world is as before: nothing requested, nothing drawn, no file
    touched.  Hence after a run that ended with status 0 the file is there
    and a second run does nothing. *)
Theorem driver_idempotent (st : State) :
  (file_exists "monsters.json" st = true → main st = (0, st))
  ∧ (∀ st1, main st = (0, st1) →
       file_exists "monsters.json" st1 = true ∧ main st1 = (0, st1)).
Proof.
  assert (∀ s, file_exists "monsters.json" s = true → main s = (0, s)) as Hskip.
  { intros s H. unfold main. by rewrite H. }
  split; [apply Hskip|].
  intros st1 H.
  assert (file_exists "monsters.json" st1 = true) as Hex.
  { unfold main in H. destruct (file_exists "monsters.json" st) eqn:E.
    - by injection H as <-.
    - destruct (run_stages st) as [[x|e] st2] eqn:R; [|done].
      injection H as <-. by eapply run_stages_writes. }
  split; [done|by apply Hskip].
Qed.

(** ** Further properties of the client *)

Lemma summary_validates (s : MonsterSummary) :
  validate_summary (MonsterSummary_dump s) = Ok s.
Proof. by destruct s. Qed.

Lemma summaries_validate (sums : list MonsterSummary) :
  mapM validate_summary (MonsterSummary_dump <$> sums) = Ok sums.
Proof.
  induction sums as [|s sums IH]; [done|].
  cbn [fmap list_fmap mapM]. rewrite summary_validates.
  change (mapM validate_summary (MonsterSummary_dump <$> sums) ≫=
            (λ k, mret (s :: k)) = Ok (s :: sums)).
  by rewrite IH.
Qed.

Lemma APIResponse_of_catalog (c : Z) (sums : list MonsterSummary) :
  APIResponse_of (catalog_body c sums) = Ok (mkAPIResponse c sums).
Proof.
  unfold APIResponse_of, catalog_body. cbn [required dict_get String.eqb Ascii.eqb
    Bool.eqb mbind result_bind validate_int].
  change (mapM validate_summary (MonsterSummary_dump <$> sums) ≫=
            (λ r', Ok (mkAPIResponse c r')) = Ok (mkAPIResponse c sums)).
  by rewrite summaries_validate.
Qed.

Lemma validate_int_error (v : json) (e : exn) :
  validate_int v = Raise e → e = ValidationError.
Proof.
  destruct v; simpl; try (by intros [= <-]); try done.
  - by destruct (Z.eqb _ 0); [|intros [= <-]].
  - by destruct (str_as_int s); [|intros [= <-]].
Qed.

Lemma fetch_monsters_list_catalog (limit : option Z) (c : Z)
    (sums : list MonsterSummary) (st : State) :
  remote st (length (sent st)) catalog_url = Body (catalog_body c sums) →
  fetch_monsters_list limit st =
    (Ok (match limit with Some n => slice_to n sums | None => sums end),
     after_request catalog_url st).
Proof.
  intros H. unfold fetch_monsters_list, rewrap_request, mbind, M_bind, http_get.
  fold catalog_url. rewrite H. unfold lift. rewrite APIResponse_of_catalog.
  by destruct limit.
Qed.

(** X1: on a well-formed catalog reply [fetch_monsters_list] sends one
    request and returns a prefix of the listed summaries in the server's
    order: all of them without a limit, the first [n] (or all, if there
    are fewer) with a limit [n >= 0], and all but the last [-n] with a
    negative limit; the announced count plays no part. *)
Theorem fetch_list_is_prefix (limit : option Z) (c : Z)
    (sums : list MonsterSummary) (st : State) :
  remote st (length (sent st)) catalog_url = Body (catalog_body c sums) →
  ∃ out,
    fetch_monsters_list limit st = (Ok out, after_request catalog_url st)
    ∧ out `prefix_of` sums
    ∧ (limit = None → out = sums)
    ∧ (∀ n, limit = Some n → 0 ≤ n →
         out = take (Z.to_nat n) sums
         ∧ length out = Nat.min (Z.to_nat n) (length sums))
    ∧ (∀ n, limit = Some n → n < 0 →
         length out = (length sums - Z.to_nat (- n))%nat).
Proof.
  intros H. eexists. split; [by apply (fetch_monsters_list_catalog limit c)|].
  split; [|split; [|split]].
  - destruct limit as [n|]; [|done]. unfold slice_to.
    destruct (0 <=? n); apply prefix_take.
  - by intros ->.
  - intros n -> Hn. unfold slice_to.
    destruct (Z.leb_spec 0 n); [|lia]. split; [done|apply length_take].
  - intros n -> Hn. unfold slice_to.
    destruct (Z.leb_spec 0 n); [lia|]. rewrite length_take. lia.
Qed.

(** X2: a failed catalog request is re-raised by [fetch_monsters_list] as
    its own [Exception]; a reply that is not an object, or whose entries
    cannot be validated, raises [TypeError] or [ValidationError] as it is,
    outside the handler.  In each case one request has been sent. *)
Theorem fetch_list_failures (limit : option Z) (st : State) :
  (remote st (length (sent st)) catalog_url = Failed →
     fetch_monsters_list limit st =
       (Raise (Exception_ "Failed to fetch monsters list" RequestException),
        after_request catalog_url st))
  ∧ (∀ v, remote st (length (sent st)) catalog_url = Body v →
       is_dict v = false →
       fetch_monsters_list limit st = (Raise TypeError, after_request catalog_url st))
  ∧ (∀ d, remote st (length (sent st)) catalog_url = Body (JDict d) →
       dict_get "count" d = None ∨ dict_get "results" d = None →
       fetch_monsters_list limit st =
         (Raise ValidationError, after_request catalog_url st)).
Proof.
  split; [|split].
  - intros H. unfold fetch_monsters_list, rewrap_request, mbind, M_bind, http_get.
    fold catalog_url. by rewrite H.
  - intros v H Hv. unfold fetch_monsters_list, rewrap_request, mbind, M_bind,
      http_get. fold catalog_url. rewrite H. unfold lift.
    by destruct v.
  - intros d H Hd. unfold fetch_monsters_list, rewrap_request, mbind, M_bind,
      http_get. fold catalog_url. rewrite H. unfold lift, APIResponse_of, required.
    destruct (dict_get "count" d) as [cv|] eqn:Ec; [|done].
    destruct Hd as [Hd|Hd]; [done|]. rewrite Hd. cbn [mbind result_bind].
    destruct (validate_int cv) as [a|e] eqn:Ev; [reflexivity|].
    by apply validate_int_error in Ev as ->.
Qed.

Lemma full_url_relative (u : string) :
  String.prefix "/" u = true → full_url u = "https://www.dnd5eapi.co" +:+ u.
Proof. intros H. unfold full_url. by rewrite H. Qed.

Lemma full_url_absolute (u : string) :
  String.prefix "/" u = false → full_url u = u.
Proof. intros H. unfold full_url. by rewrite H. Qed.

(** X3: [fetch_monster_details] sends exactly one request, to the
    reference itself when it does not start with a slash and to the host
    followed by the reference when it does (so a resolved address is not
    resolved again); a reply is handed back unchanged whatever its shape,
    and a failed request is re-raised as the client's own [Exception]. *)
Theorem fetch_details_one_request (monster_url : string) (st : State) :
  (fetch_monster_details monster_url st).2 = after_request (full_url monster_url) st
  ∧ full_url (full_url monster_url) = full_url monster_url
  ∧ (∀ v, remote st (length (sent st)) (full_url monster_url) = Body v →
       (fetch_monster_details monster_url st).1 = Ok v)
  ∧ (remote st (length (sent st)) (full_url monster_url) = Failed →
       (fetch_monster_details monster_url st).1 =
         Raise (Exception_ ("Failed to fetch monster details from "
                            +:+ full_url monster_url) RequestException)).
Proof.
  unfold fetch_monster_details, rewrap_request, http_get.
  repeat split.
  - by destruct (remote st _ _).
  - unfold full_url. destruct (String.prefix "/" monster_url) eqn:E; [done|].
    by rewrite E.
  - by intros v ->.
  - by intros ->.
Qed.

(** X4: when the destination cannot be opened for writing,
    [save_monsters_to_json] raises its own [Exception] and leaves the
    world, the file system included, as it was. *)
Theorem persister_failure (monsters : list Monster) (filename : string)
    (st : State) :
  filename ∈ unwritable st →
  save_monsters_to_json monsters filename st =
    (Raise (Exception_ "Failed to save monsters to JSON" OSError), st).
Proof.
  intros H. rewrite save_monsters_to_json_outcome.
  by rewrite bool_decide_eq_true_2.
Qed.

(** X5: whatever its outcome, [save_monsters_to_json] touches no file but
    its destination, sends no request and draws no random number. *)
Theorem persister_frame (monsters : list Monster) (filename : string)
    (st : State) :
  (∀ p, p ≠ filename →
     files (save_monsters_to_json monsters filename st).2 !! p = files st !! p)
  ∧ sent (save_monsters_to_json monsters filename st).2 = sent st
  ∧ tape (save_monsters_to_json monsters filename st).2 = tape st
  ∧ heap (save_monsters_to_json monsters filename st).2 = heap st.
Proof.
  rewrite save_monsters_to_json_outcome.
  case_bool_decide; [done|].
  destruct (dump_fault st filename (encode_monsters monsters)); simpl;
    repeat split; try done; intros p Hp; by rewrite lookup_insert_ne.
Qed.

(** X6: a raw value that is not an object (null, a boolean, a number, a
    string, a list) is never normalised: [process_monster_data] raises its
    own [Exception]. *)
Theorem process_rejects_non_objects (raw : json) :
  is_dict raw = false →
  ∃ e, process_monster_data raw =
         Raise (Exception_ "Failed to process monster data" e).
Proof.
  intros H. unfold process_monster_data, extract_actions, extract_armor_class,
    guarded_item.
  destruct raw as [|b|n|q|t|l|d]; try discriminate; try (by eexists).
  - simpl. destruct (str_contains "actions" t); simpl; [by eexists|].
    destruct (str_contains "armor_class" t); simpl; by eexists.
  - simpl. repeat (destruct (existsb _ l); simpl); by eexists.
Qed.

(** X7: the [name] of a payload is stored as it is when it is a string and
    as the empty string when the key is missing, and a payload whose
    [name] is anything else is not normalised; in particular a payload
    with nothing but a string for a name is normalised to that name, and
    one with no key at all to the empty name. *)
Theorem name_is_text_or_rejected (d : dict) :
  (∀ t m, dict_get "name" d = Some (JStr t) →
          process_monster_data (JDict d) = Ok m → name m = t)
  ∧ (∀ m, dict_get "name" d = None →
          process_monster_data (JDict d) = Ok m → name m = "")
  ∧ (∀ v, dict_get "name" d = Some v → (∀ t, v ≠ JStr t) →
          ∃ e, process_monster_data (JDict d) =
                 Raise (Exception_ "Failed to process monster data" e))
  ∧ (dict_get "actions" d = None →
     dict_get "armor_class" d = None →
     dict_get "hit_points" d = None →
     (∀ t, dict_get "name" d = Some (JStr t) →
           process_monster_data (JDict d) = Ok (mkMonster t None None []))
     ∧ (dict_get "name" d = None →
          process_monster_data (JDict d) = Ok (mkMonster "" None None [])))
  ∧ (∀ t, process_monster_data (JDict [("name", JStr t)])
          = Ok (mkMonster t None None [])).
Proof.
  assert ((∀ t m, dict_get "name" d = Some (JStr t) →
                  process_monster_data (JDict d) = Ok m → name m = t)
          ∧ (∀ m, dict_get "name" d = None →
                  process_monster_data (JDict d) = Ok m → name m = "")
          ∧ (∀ v, dict_get "name" d = Some v → (∀ t, v ≠ JStr t) →
                  ∃ e, process_monster_data (JDict d) =
                         Raise (Exception_ "Failed to process monster data" e)))
    as (H1 & H2 & H3).
  { rewrite process_dict. unfold py_get_or, Monster_new.
    destruct (extract_actions (JDict d)) as [acts|e]; simpl;
      [|by repeat split; try done; intros; eexists].
    destruct (extract_armor_class (JDict d)) as [ac|e]; simpl;
      [|by repeat split; try done; intros; eexists].
    repeat split.
    - intros t m ->. simpl.
      destruct (validate_optional_int (py_get "hit_points" d)); simpl; [|done].
      destruct (validate_optional_int ac); simpl; [|done].
      by intros [= <-].
    - intros m ->. simpl.
      destruct (validate_optional_int (py_get "hit_points" d)); simpl; [|done].
      destruct (validate_optional_int ac); simpl; [|done].
      by intros [= <-].
    - intros v -> Hv. simpl.
      destruct v; try (by eexists). by destruct (Hv s). }
  split; [exact H1|]. split; [exact H2|]. split; [exact H3|]. split.
  - intros Ha Hc Hh. rewrite (process_plain d Ha Hc). unfold py_get_or, py_get.
    rewrite Hh. split; [intros t ->|intros ->]; reflexivity.
  - reflexivity.
Qed.

Lemma action_from_entry (e : dict) :
  action_from (JDict e) =
    match entry_action e with Some a => Ok a | None => Raise ValidationError end.
Proof.
  unfold action_from, entry_action, text_or_empty, attr_get_or, py_get_or, Action_new.
  simpl.
  destruct (dict_get "name" e) as [[]|]; simpl; try done;
  destruct (dict_get "desc" e) as [[]|]; simpl; done.
Qed.

Lemma actions_from_entries (entries : list dict) :
  mapM action_from (JDict <$> entries) =
    match mapM entry_action entries with
    | Some acts => Ok acts
    | None => Raise ValidationError
    end.
Proof.
  induction entries as [|e entries IH]; [done|].
  cbn [fmap list_fmap mapM]. rewrite action_from_entry.
  destruct (entry_action e) as [a|]; [|done].
  change (mapM action_from (JDict <$> entries) ≫= (λ k, mret (a :: k)) =
          match mapM entry_action entries ≫= (λ k, mret (a :: k)) with
          | Some acts => Ok acts | None => Raise ValidationError end).
  rewrite IH. by destruct (mapM entry_action entries).
Qed.

(** X8: when [actions] is a list of objects, every entry becomes one
    action, in order, with a missing [name] or [desc] read as the empty
    string; an entry whose [name] or [desc] is not a string makes the
    normalisation fail; a missing or empty [actions] gives no actions. *)
Theorem actions_are_mapped_in_order (d : dict) (entries : list dict) :
  dict_get "actions" d = Some (JList (JDict <$> entries)) →
  (∀ acts, mapM entry_action entries = Some acts →
     extract_actions (JDict d) = Ok acts
     ∧ length acts = length entries
     ∧ ∀ m, process_monster_data (JDict d) = Ok m → actions m = acts)
  ∧ (mapM entry_action entries = None →
       process_monster_data (JDict d) =
         Raise (Exception_ "Failed to process monster data" ValidationError)).
Proof.
  intros H.
  assert (extract_actions (JDict d) =
          match mapM entry_action entries with
          | Some acts => Ok acts | None => Raise ValidationError end) as E.
  { unfold extract_actions. rewrite guarded_item_dict, H.
    destruct entries as [|e entries]; [done|].
    cbn [truthy fmap list_fmap mbind result_bind py_iter].
    apply (actions_from_entries (e :: entries)). }
  split.
  - intros acts Hacts. rewrite Hacts in E. split; [done|]. split.
    + symmetry. by eapply length_mapM.
    + intros m. rewrite process_dict, E. simpl.
      destruct (extract_armor_class (JDict d)) as [ac|e]; simpl; [|done].
      unfold Monster_new.
      destruct (validate_str _); simpl; [|done].
      destruct (validate_optional_int (py_get "hit_points" d)); simpl; [|done].
      destruct (validate_optional_int ac); simpl; [|done].
      by intros [= <-].
  - intros Hnone. by rewrite process_dict, E, Hnone.
Qed.

(** ** Further properties of the stages *)

Lemma action_round_trip (a : Action) : Action_of (Action_dump a) = Ok a.
Proof. by destruct a. Qed.

Lemma actions_round_trip (acts : list Action) :
  mapM Action_of (Action_dump <$> acts) = Ok acts.
Proof.
  induction acts as [|a acts IH]; [done|].
  cbn [fmap list_fmap mapM]. rewrite action_round_trip.
  change (mapM Action_of (Action_dump <$> acts) ≫= (λ k, mret (a :: k)) =
          Ok (a :: acts)).
  by rewrite IH.
Qed.

Lemma optional_int_round_trip (o : option Z) :
  validate_optional_int (dump_optional_int o) = Ok o.
Proof. by destruct o. Qed.

Lemma monster_round_trip (m : Monster) : Monster_of (Monster_dump m) = Ok m.
Proof.
  destruct m as [n hp ac acts].
  unfold Monster_of, Monster_dump, Monster_kwargs, required. simpl.
  rewrite !optional_int_round_trip. simpl.
  change (mapM Action_of (Action_dump <$> acts) ≫=
            (λ acts', Ok (mkMonster n hp ac acts')) = Ok (mkMonster n hp ac acts)).
  by rewrite actions_round_trip.
Qed.

Lemma monsters_round_trip (ms : list Monster) :
  mapM Monster_of (Monster_dump <$> ms) = Ok ms.
Proof.
  induction ms as [|m ms IH]; [done|].
  cbn [fmap list_fmap mapM]. rewrite monster_round_trip.
  change (mapM Monster_of (Monster_dump <$> ms) ≫= (λ k, mret (m :: k)) =
          Ok (m :: ms)).
  by rewrite IH.
Qed.

Lemma monsters_of_dumps (ms : list Monster) :
  (items ← py_iter (JList (Monster_dump <$> ms)); mapM Monster_of items) = Ok ms.
Proof. exact (monsters_round_trip ms). Qed.

(** X9: what one stage hands over is read back unchanged by the next:
    the dumps of summaries are rebuilt into the same summaries and the
    dumps of monsters into the same monsters, absent-markers, zeros and
    actions included. *)
Theorem handoff_round_trip :
  (∀ sums : list MonsterSummary,
     (items ← py_iter (JList (MonsterSummary_dump <$> sums));
      mapM MonsterSummary_of items) = Ok sums)
  ∧ (∀ ms : list Monster,
       (items ← py_iter (JList (Monster_dump <$> ms));
        mapM Monster_of items) = Ok ms).
Proof.
  split.
  - intros sums. exact (summaries_round_trip sums).
  - intros ms. exact (monsters_round_trip ms).
Qed.

Lemma save_task_on_dumps (context : Context) (ti : string → json)
    (ms : list Monster) (st : State) :
  ctx_ti context = Some ti →
  ms ≠ [] →
  ti "fetch_monster_details" = JList (Monster_dump <$> ms) →
  save_monsters_task context st =
    save_monsters_to_json ms (default "monsters.json" (ctx_output_file context)) st.
Proof.
  intros Hti Hne Hdata. unfold save_monsters_task. unfold mbind, M_bind at 1.
  rewrite (get_ti_Some _ _ _ Hti), Hdata.
  replace (truthy (JList (Monster_dump <$> ms))) with true by (by destruct ms).
  cbn [negb]. rewrite monsters_of_dumps.
  by unfold mbind, M_bind at 1.
Qed.

(** X10: handed the dumps of a non-empty list of monsters and a path that
    can be opened for writing ([monsters.json] when none is given), the
    persister stage writes the serialisation of exactly these monsters, in
    order, and returns the path when the dump completes; when the dump
    raises, the stage raises and the file is left with what had been
    written. *)
Theorem persist_stage_writes_handoff (context : Context) (ti : string → json)
    (ms : list Monster) (st : State) :
  ctx_ti context = Some ti →
  ms ≠ [] →
  ti "fetch_monster_details" = JList (Monster_dump <$> ms) →
  default "monsters.json" (ctx_output_file context) ∉ unwritable st →
  save_monsters_task context st =
    match dump_fault st (default "monsters.json" (ctx_output_file context))
            (encode_monsters ms) with
    | Completes =>
        (Ok (default "monsters.json" (ctx_output_file context)),
         after_write (default "monsters.json" (ctx_output_file context))
                     (encode_monsters ms) st)
    | Fails n e =>
        (Raise (Exception_ "Failed to save monsters to JSON" e),
         after_write (default "monsters.json" (ctx_output_file context))
                     (String.substring 0 n (encode_monsters ms)) st)
    end.
Proof.
  intros Hti Hne Hdata Hw. rewrite (save_task_on_dumps _ _ _ _ Hti Hne Hdata).
  rewrite save_monsters_to_json_outcome.
  by rewrite bool_decide_eq_false_2.
Qed.

Lemma new_list_lookup (l : list MonsterSummary) (st : State) :
  heap (after_new_list l st) !! fresh (dom (heap st)) = Some l.
Proof. simpl. apply lookup_insert_eq. Qed.

Lemma fresh_is_new (st : State) (r : loc) (l : list MonsterSummary) :
  heap st !! r = Some l → fresh (dom (heap st)) ≠ r.
Proof.
  intros Hr Heq. apply (is_fresh (dom (heap st))). rewrite Heq.
  apply elem_of_dom. by eexists.
Qed.

(** The sampler on a list object, with the world it leaves. *)
Lemma select_random_monsters_sample (st : State) (r : loc)
    (monsters : list MonsterSummary) (count : Z) :
  heap st !! r = Some monsters →
  0 ≤ count ≤ Z.of_nat (length monsters) →
  ∃ sel,
    select_random_monsters r count st =
      (Ok (fresh (dom (heap st))),
       after_new_list sel (after_draws (Z.to_nat count) st))
    ∧ length sel = Z.to_nat count ∧ sel ⊆+ monsters.
Proof.
  intros Hr Hcount. unfold select_random_monsters.
  unfold mbind, M_bind at 1. unfold read_list at 1. rewrite Hr.
  destruct (Z.ltb_spec (Z.of_nat (length monsters)) count) as [Hlt|Hge]; [lia|].
  destruct (random_sample_spec monsters count st) as (sel & Hsel & Hlen & Hsub);
    [lia|].
  exists sel. split; [|done]. unfold mbind, M_bind. by rewrite Hsel.
Qed.

Lemma select_random_monsters_short (st : State) (r : loc)
    (monsters : list MonsterSummary) (count : Z) :
  heap st !! r = Some monsters →
  Z.of_nat (length monsters) < count →
  select_random_monsters r count st = (Ok r, st).
Proof.
  intros Hr Hlt. unfold select_random_monsters.
  unfold mbind, M_bind. unfold read_list. rewrite Hr.
  by destruct (Z.ltb_spec (Z.of_nat (length monsters)) count); [|lia].
Qed.

(** X11: when the population is at least as large as a non-negative
    count, [select_random_monsters] returns a new list object and leaves
    the list it was given as it was; asked for exactly as many summaries
    as there are, it returns all of them, in some order. *)
Theorem sample_is_a_new_list (st : State) (r : loc)
    (monsters : list MonsterSummary) (count : Z) :
  heap st !! r = Some monsters →
  0 ≤ count ≤ Z.of_nat (length monsters) →
  ∃ r' st' selected,
    select_random_monsters r count st = (Ok r', st')
    ∧ r' ≠ r
    ∧ heap st' !! r = Some monsters
    ∧ heap st' !! r' = Some selected
    ∧ (count = Z.of_nat (length monsters) → selected ≡ₚ monsters).
Proof.
  intros Hr Hcount.
  destruct (select_random_monsters_sample st r monsters count Hr Hcount)
    as (sel & Hsel & Hlen & Hsub).
  exists (fresh (dom (heap st))),
         (after_new_list sel (after_draws (Z.to_nat count) st)), sel.
  pose proof (fresh_is_new st r monsters Hr) as Hnew.
  split; [done|]. split; [done|]. split.
  { simpl. by rewrite lookup_insert_ne. }
  split; [simpl; apply lookup_insert_eq|].
  intros Heq. apply submseteq_length_Permutation; [done|]. lia.
Qed.

Lemma select_task_on_dumps (context : Context) (ti : string → json)
    (sums : list MonsterSummary) (st : State) :
  ctx_ti context = Some ti →
  sums ≠ [] →
  ti "fetch_monsters" = JList (MonsterSummary_dump <$> sums) →
  select_random_monsters_task context st =
    (selected_monsters ←
       select_random_monsters (fresh (dom (heap st))) (default 5 (ctx_count context));
     selected ← read_list selected_monsters;
     mret (JList (MonsterSummary_dump <$> selected))) (after_new_list sums st).
Proof.
  intros Hti Hne Hdata. unfold select_random_monsters_task.
  unfold mbind, M_bind at 1. rewrite (get_ti_Some _ _ _ Hti), Hdata.
  replace (truthy (JList (MonsterSummary_dump <$> sums))) with true
    by (by destruct sums).
  cbn [negb]. rewrite summaries_of_dumps.
  unfold mbind, M_bind at 1. unfold lift at 1.
  unfold mbind, M_bind at 1. unfold new_list at 1. done.
Qed.

(** X12: handed the dumps of a non-empty list of summaries shorter than
    the count (5 when none is given), the sampler stage returns the very
    data it was handed and draws no random number. *)
Theorem sampler_stage_keeps_short_input (context : Context) (ti : string → json)
    (sums : list MonsterSummary) (st : State) :
  ctx_ti context = Some ti →
  sums ≠ [] →
  ti "fetch_monsters" = JList (MonsterSummary_dump <$> sums) →
  Z.of_nat (length sums) < default 5 (ctx_count context) →
  select_random_monsters_task context st =
    (Ok (ti "fetch_monsters"), after_new_list sums st)
  ∧ tape (after_new_list sums st) = tape st.
Proof.
  intros Hti Hne Hdata Hlt. split; [|done].
  rewrite (select_task_on_dumps _ _ _ _ Hti Hne Hdata), Hdata.
  unfold mbind, M_bind at 1.
  rewrite (select_random_monsters_short _ _ sums) by (done || apply new_list_lookup).
  unfold mbind, M_bind, read_list. by rewrite new_list_lookup.
Qed.

(** The sampler stage on the dumps of summaries. *)
Lemma select_task_selection (context : Context) (ti : string → json)
    (sums : list MonsterSummary) (st : State) :
  ctx_ti context = Some ti →
  sums ≠ [] →
  ti "fetch_monsters" = JList (MonsterSummary_dump <$> sums) →
  0 ≤ default 5 (ctx_count context) →
  ∃ selected st',
    select_random_monsters_task context st =
      (Ok (JList (MonsterSummary_dump <$> selected)), st')
    ∧ length selected
      = Nat.min (length sums) (Z.to_nat (default 5 (ctx_count context)))
    ∧ selected ⊆+ sums
    ∧ files st' = files st ∧ sent st' = sent st.
Proof.
  intros Hti Hne Hdata Hcount.
  rewrite (select_task_on_dumps _ _ _ _ Hti Hne Hdata).
  set (count := default 5 (ctx_count context)) in *.
  destruct (Z.ltb_spec (Z.of_nat (length sums)) count) as [Hlt|Hge].
  - exists sums, (after_new_list sums st).
    unfold mbind, M_bind at 1.
    rewrite (select_random_monsters_short _ _ sums) by (done || apply new_list_lookup).
    unfold mbind, M_bind, read_list. rewrite new_list_lookup.
    repeat split; try done. lia.
  - destruct (select_random_monsters_sample (after_new_list sums st)
                (fresh (dom (heap st))) sums count)
      as (sel & Hsel & Hlen & Hsub); [apply new_list_lookup|lia|].
    exists sel. eexists. unfold mbind, M_bind at 1. rewrite Hsel.
    assert (heap (after_new_list sel
                    (after_draws (Z.to_nat count) (after_new_list sums st)))
              !! fresh (dom (heap (after_new_list sums st))) = Some sel) as Hl
      by apply (new_list_lookup sel
                  (after_draws (Z.to_nat count) (after_new_list sums st))).
    unfold mbind, M_bind, read_list. rewrite Hl.
    repeat split; try done. lia.
Qed.

(** X13: handed the dumps of a non-empty list of [n] summaries and a
    count that is not negative, the sampler stage returns the dumps of
    [min(n, count)] of them, no position taken twice, and neither sends a
    request nor touches a file. *)
Theorem sampler_stage_cardinality (context : Context) (ti : string → json)
    (sums : list MonsterSummary) (st : State) :
  ctx_ti context = Some ti →
  sums ≠ [] →
  ti "fetch_monsters" = JList (MonsterSummary_dump <$> sums) →
  0 ≤ default 5 (ctx_count context) →
  ∃ selected st',
    select_random_monsters_task context st =
      (Ok (JList (MonsterSummary_dump <$> selected)), st')
    ∧ length selected
      = Nat.min (length sums) (Z.to_nat (default 5 (ctx_count context)))
    ∧ selected ⊆+ sums
    ∧ files st' = files st ∧ sent st' = sent st.
Proof. apply select_task_selection. Qed.

Lemma successes_length (rs : list (result Monster)) :
  (length (successes rs) ≤ length rs)%nat.
Proof.
  induction rs as [|[m|e] rs IH]; simpl; [lia| |];
    unfold successes in *; simpl; lia.
Qed.

Lemma enricher_on_dumps (context : Context) (ti : string → json)
    (sums : list MonsterSummary) (st : State) :
  ctx_ti context = Some ti →
  sums ≠ [] →
  ti "select_random_monsters" = JList (MonsterSummary_dump <$> sums) →
  fetch_monster_details_task context st =
    (Ok (JList (Monster_dump <$> successes (outcomes sums st).1)),
     (outcomes sums st).2).
Proof.
  intros Hti Hne Hdata.
  unfold fetch_monster_details_task. unfold mbind, M_bind at 1.
  rewrite (get_ti_Some _ _ _ Hti), Hdata.
  replace (truthy (JList (MonsterSummary_dump <$> sums))) with true
    by (by destruct sums).
  cbn [negb]. rewrite summaries_of_dumps. unfold lift, mbind, M_bind.
  by rewrite details_loop_outcomes.
Qed.

Lemma outcomes_all_failed (sums : list MonsterSummary) :
  ∀ st, (∀ i u, remote st i u = Failed) →
        successes (outcomes sums st).1 = [].
Proof.
  induction sums as [|s sums IH]; intros st Hfail; [done|].
  cbn [outcomes]. pose proof (details_body_world s st) as Hw.
  assert ((details_body s st).1 =
          Raise (Exception_ ("Failed to fetch monster details from "
                             +:+ full_url (url s)) RequestException)) as Hr.
  { unfold details_body, mbind, M_bind, fetch_monster_details, rewrap_request,
      http_get. by rewrite Hfail. }
  destruct (details_body s st) as [r st1]. simpl in Hw, Hr. subst r st1.
  specialize (IH (after_request (full_url (url s)) st) Hfail).
  by destruct (outcomes sums _) as [rs st2].
Qed.

(** X14: the enricher stage never returns more monsters than it was
    handed summaries, and when every request fails it returns the empty
    list rather than raising. *)
Theorem enricher_stage_cardinality (context : Context) (ti : string → json)
    (sums : list MonsterSummary) (st : State) :
  ctx_ti context = Some ti →
  sums ≠ [] →
  ti "select_random_monsters" = JList (MonsterSummary_dump <$> sums) →
  ∃ ms st',
    fetch_monster_details_task context st = (Ok (JList (Monster_dump <$> ms)), st')
    ∧ (length ms ≤ length sums)%nat
    ∧ ((∀ i u, remote st i u = Failed) → ms = []).
Proof.
  intros Hti Hne Hdata. eexists. eexists.
  split; [by apply (enricher_on_dumps _ ti sums)|]. split.
  - rewrite <-(outcomes_length sums st). apply successes_length.
  - apply outcomes_all_failed.
Qed.

(** ** Further properties of the driver *)

Lemma keeps_disk_ret {A} (a : A) : keeps_disk (mret a : M A).
Proof. by intros st. Qed.

Lemma keeps_disk_raise {A} (e : exn) : keeps_disk (raise e : M A).
Proof. by intros st. Qed.

Lemma keeps_disk_lift {A} (r : result A) : keeps_disk (lift r).
Proof. by intros st. Qed.

Lemma keeps_disk_bind {A B} (c : M A) (f : A → M B) :
  keeps_disk c → (∀ a, keeps_disk (f a)) → keeps_disk (c ≫= f).
Proof.
  intros Hc Hf st. unfold mbind, M_bind. destruct (Hc st) as [Hc1 Hc2].
  destruct (c st) as [[a|e] st1]; simpl in *; [|done].
  destruct (Hf a st1) as [Hf1 Hf2]. split; congruence.
Qed.

Lemma keeps_disk_attempt {A} (c : M A) : keeps_disk c → keeps_disk (attempt c).
Proof.
  intros Hc st. unfold attempt. specialize (Hc st).
  by destruct (c st) as [r st1].
Qed.

Lemma keeps_disk_rewrap_request {A} (msg : string) (c : M A) :
  keeps_disk c → keeps_disk (rewrap_request msg c).
Proof.
  intros Hc st. unfold rewrap_request. specialize (Hc st).
  by destruct (c st) as [[a|[]] st1].
Qed.

Lemma keeps_disk_http_get (u : string) : keeps_disk (http_get u).
Proof. intros st. unfold http_get. by destruct (remote st _ _). Qed.

Lemma keeps_disk_randbelow (n : nat) : keeps_disk (randbelow n).
Proof. by intros st. Qed.

Lemma keeps_disk_new_list (l : list MonsterSummary) : keeps_disk (new_list l).
Proof. by intros st. Qed.

Lemma keeps_disk_read_list (r : loc) : keeps_disk (read_list r).
Proof. intros st. unfold read_list. by destruct (heap st !! r). Qed.

Lemma keeps_disk_get_ti (context : Context) : keeps_disk (get_ti context).
Proof. intros st. unfold get_ti. by destruct (ctx_ti context). Qed.

Lemma keeps_disk_sample_loop {A} (todo : nat) :
  ∀ (pool : list A) (live : nat), keeps_disk (sample_loop pool live todo).
Proof.
  induction todo as [|todo IH]; intros pool live; [apply keeps_disk_ret|].
  cbn [sample_loop]. apply keeps_disk_bind; [apply keeps_disk_randbelow|].
  intros j. destruct (pool !! j); [|apply keeps_disk_raise].
  destruct (pool !! (live - 1)%nat); [|apply keeps_disk_raise].
  apply keeps_disk_bind; [apply IH|]. intros rest. apply keeps_disk_ret.
Qed.

Lemma keeps_disk_random_sample {A} (population : list A) (k : Z) :
  keeps_disk (random_sample population k).
Proof.
  unfold random_sample. destruct (_ && _);
    [apply keeps_disk_sample_loop|apply keeps_disk_raise].
Qed.

Lemma keeps_disk_select (r : loc) (count : Z) :
  keeps_disk (select_random_monsters r count).
Proof.
  unfold select_random_monsters.
  apply keeps_disk_bind; [apply keeps_disk_read_list|]. intros items.
  destruct (_ <? _); [apply keeps_disk_ret|].
  apply keeps_disk_bind; [apply keeps_disk_random_sample|].
  intros sel. apply keeps_disk_new_list.
Qed.

Lemma keeps_disk_fetch_list (limit : option Z) :
  keeps_disk (fetch_monsters_list limit).
Proof.
  unfold fetch_monsters_list. apply keeps_disk_rewrap_request.
  apply keeps_disk_bind; [apply keeps_disk_http_get|]. intros body.
  apply keeps_disk_bind; [apply keeps_disk_lift|]. intros r.
  destruct limit; apply keeps_disk_ret.
Qed.

Lemma keeps_disk_fetch_task (context : Context) :
  keeps_disk (fetch_monsters_task context).
Proof.
  unfold fetch_monsters_task.
  apply keeps_disk_bind; [apply keeps_disk_fetch_list|].
  intros l. apply keeps_disk_ret.
Qed.

Lemma keeps_disk_select_task (context : Context) :
  keeps_disk (select_random_monsters_task context).
Proof.
  unfold select_random_monsters_task.
  apply keeps_disk_bind; [apply keeps_disk_get_ti|]. intros ti.
  destruct (negb _); [apply keeps_disk_raise|].
  apply keeps_disk_bind; [apply keeps_disk_lift|]. intros monsters.
  apply keeps_disk_bind; [apply keeps_disk_new_list|]. intros r.
  apply keeps_disk_bind; [apply keeps_disk_select|]. intros r'.
  apply keeps_disk_bind; [apply keeps_disk_read_list|]. intros sel.
  apply keeps_disk_ret.
Qed.

Lemma keeps_disk_details_body (s : MonsterSummary) : keeps_disk (details_body s).
Proof.
  unfold details_body, fetch_monster_details.
  apply keeps_disk_bind;
    [apply keeps_disk_rewrap_request, keeps_disk_http_get|].
  intros raw. apply keeps_disk_lift.
Qed.

Lemma keeps_disk_details_loop (sums : list MonsterSummary) :
  ∀ acc, keeps_disk (details_loop sums acc).
Proof.
  induction sums as [|s sums IH]; intros acc; [apply keeps_disk_ret|].
  cbn [details_loop].
  apply keeps_disk_bind; [apply keeps_disk_attempt, keeps_disk_details_body|].
  intros [m|e]; apply IH.
Qed.

Lemma keeps_disk_enricher_task (context : Context) :
  keeps_disk (fetch_monster_details_task context).
Proof.
  unfold fetch_monster_details_task.
  apply keeps_disk_bind; [apply keeps_disk_get_ti|]. intros ti.
  destruct (negb _); [apply keeps_disk_raise|].
  apply keeps_disk_bind; [apply keeps_disk_lift|]. intros sums.
  apply keeps_disk_bind; [apply keeps_disk_details_loop|]. intros ms.
  apply keeps_disk_ret.
Qed.

Lemma bind_Raise {A B} (c : M A) (f : A → M B) (st st' : State) (e : exn) :
  (c ≫= f) st = (Raise e, st') →
  c st = (Raise e, st') ∨ ∃ a st1, c st = (Ok a, st1) ∧ f a st1 = (Raise e, st').
Proof.
  unfold mbind, M_bind. destruct (c st) as [[a|e'] st1]; [eauto|].
  intros [= <- <-]. by left.
Qed.

Lemma save_monsters_to_json_raises (monsters : list Monster) (filename : string)
    (st st' : State) (e : exn) :
  save_monsters_to_json monsters filename st = (Raise e, st') →
  st' = st
  ∨ ∃ n e', dump_fault st filename (encode_monsters monsters) = Fails n e'
            ∧ st' = after_write filename
                      (String.substring 0 n (encode_monsters monsters)) st.
Proof.
  rewrite save_monsters_to_json_outcome.
  case_bool_decide; [intros [= _ <-]; by left|].
  destruct (dump_fault st filename (encode_monsters monsters)) as [|n e'];
    [done|].
  intros [= _ <-]. right. by exists n, e'.
Qed.

Lemma save_monsters_task_raises (context : Context) (st st' : State) (e : exn) :
  save_monsters_task context st = (Raise e, st') →
  st' = st
  ∨ ∃ ms n e',
      dump_fault st (default "monsters.json" (ctx_output_file context))
        (encode_monsters ms) = Fails n e'
      ∧ st' = after_write (default "monsters.json" (ctx_output_file context))
                (String.substring 0 n (encode_monsters ms)) st.
Proof.
  unfold save_monsters_task. intros [H|(ti & st1 & Hti & H)]%bind_Raise.
  - unfold get_ti in H. destruct (ctx_ti context); injection H as _ <-; by left.
  - unfold get_ti in Hti. destruct (ctx_ti context); [|done].
    injection Hti as <- <-.
    destruct (negb _); [injection H as _ <-; by left|].
    apply bind_Raise in H as [H|(ms & st2 & Hms & H)].
    + injection H as _ <-. by left.
    + injection Hms as _ <-.
      apply save_monsters_to_json_raises in H as [->|(n & e' & Hf & ->)];
        [by left|right; by exists ms, n, e'].
Qed.

(** X15: a driver run that ends with status 1 has changed no file other
    than [monsters.json]; and either it has not changed that file either,
    or the dump of some list of monsters raised part-way and the file is
    left holding what had been written by then. *)
Theorem failed_run_effect_on_files (st st' : State) :
  main st = (1, st') →
  (∀ p, p ≠ "monsters.json" → files st' !! p = files st !! p)
  ∧ (files st' = files st
     ∨ ∃ ms n e,
         dump_fault st "monsters.json" (encode_monsters ms) = Fails n e
         ∧ files st'
           = <["monsters.json" := String.substring 0 n (encode_monsters ms)]>
               (files st)).
Proof.
  intros Hmain.
  assert (files st' = files st
     ∨ ∃ ms n e,
         dump_fault st "monsters.json" (encode_monsters ms) = Fails n e
         ∧ files st'
           = <["monsters.json" := String.substring 0 n (encode_monsters ms)]>
               (files st)) as Hcases.
  { revert Hmain. unfold main.
    destruct (file_exists "monsters.json" st); [done|].
    destruct (run_stages st) as [[x|e] st2] eqn:R; [done|].
    intros [= <-]. unfold run_stages in R.
    destruct (keeps_disk_fetch_task (mkContext None None None None) st)
      as [H1 F1].
    apply bind_Raise in R as [R|(d1 & st1 & R1 & R)];
      [rewrite R in H1; by left|].
    rewrite R1 in H1, F1. simpl in H1, F1.
    destruct (keeps_disk_select_task
                (mkContext None (Some 5) None (Some (MockTI d1))) st1)
      as [H2 F2].
    apply bind_Raise in R as [R|(d2 & st3 & R2 & R)];
      [rewrite R in H2; simpl in H2; left; congruence|].
    rewrite R2 in H2, F2. simpl in H2, F2.
    destruct (keeps_disk_enricher_task
                (mkContext None None None (Some (MockTI d2))) st3)
      as [H3 F3].
    apply bind_Raise in R as [R|(d3 & st4 & R3 & R)];
      [rewrite R in H3; simpl in H3; left; congruence|].
    rewrite R3 in H3, F3. simpl in H3, F3.
    apply save_monsters_task_raises in R as [->|(ms & n & e' & Hf & ->)].
    - left. congruence.
    - right. exists ms, n, e'. simpl in *. split; congruence. }
  split; [|done].
  intros p Hp. destruct Hcases as [->|(ms & n & e & _ & ->)]; [done|].
  by rewrite lookup_insert_ne.
Qed.

Lemma enricher_output_shape (context : Context) (d : json) (st st' : State) :
  fetch_monster_details_task context st = (Ok d, st') →
  ∃ ms, d = JList (Monster_dump <$> ms).
Proof.
  unfold fetch_monster_details_task. intros (ti & st1 & _ & H)%bind_Ok.
  destruct (negb _); [done|].
  apply bind_Ok in H as (sums & st2 & _ & H).
  apply bind_Ok in H as (ms & st3 & _ & H).
  injection H as <- _. by exists ms.
Qed.

(** X16: a driver run that starts without [monsters.json] and ends with
    status 0 has written exactly that file, and what it wrote is the
    serialisation of a list of monsters that is not empty. *)
Theorem successful_run_writes_monsters (st st' : State) :
  file_exists "monsters.json" st = false →
  main st = (0, st') →
  ∃ ms, ms ≠ []
        ∧ files st' = <["monsters.json" := encode_monsters ms]> (files st).
Proof.
  intros Hex. unfold main. rewrite Hex.
  destruct (run_stages st) as [[x|e] st2] eqn:R; [|done].
  intros [= <-]. unfold run_stages in R.
  destruct (keeps_disk_fetch_task (mkContext None None None None) st) as [H1 _].
  apply bind_Ok in R as (d1 & st1 & R1 & R). rewrite R1 in H1. simpl in H1.
  destruct (keeps_disk_select_task
              (mkContext None (Some 5) None (Some (MockTI d1))) st1) as [H2 _].
  apply bind_Ok in R as (d2 & st3 & R2 & R). rewrite R2 in H2. simpl in H2.
  destruct (keeps_disk_enricher_task
              (mkContext None None None (Some (MockTI d2))) st3) as [H3 _].
  apply bind_Ok in R as (d3 & st4 & R3 & R). rewrite R3 in H3. simpl in H3.
  apply enricher_output_shape in R3 as [ms ->].
  destruct ms as [|m ms]; [done|].
  exists (m :: ms). split; [done|].
  rewrite (save_task_on_dumps _ (MockTI (JList (Monster_dump <$> m :: ms))) (m :: ms))
    in R by done.
  simpl in R. rewrite save_monsters_to_json_outcome in R.
  case_bool_decide; [done|].
  destruct (dump_fault st4 "monsters.json" (encode_monsters (m :: ms))); [|done].
  injection R as _ <-. simpl. congruence.
Qed.

Lemma select_task_short (context : Context) (ti : string → json)
    (sums : list MonsterSummary) (st : State) :
  ctx_ti context = Some ti →
  sums ≠ [] →
  ti "fetch_monsters" = JList (MonsterSummary_dump <$> sums) →
  Z.of_nat (length sums) < default 5 (ctx_count context) →
  select_random_monsters_task context st =
    (Ok (JList (MonsterSummary_dump <$> sums)), after_new_list sums st).
Proof.
  intros Hti Hne Hdata Hlt.
  rewrite (select_task_on_dumps _ _ _ _ Hti Hne Hdata).
  unfold mbind, M_bind at 1.
  rewrite (select_random_monsters_short _ _ sums) by (done || apply new_list_lookup).
  unfold mbind, M_bind, read_list. by rewrite new_list_lookup.
Qed.

(** X17: when [monsters.json] is absent and can be opened for writing and
    the catalog lists between one and four summaries, a driver run asks
    for the catalog and then for the details of every listed summary in
    the catalog's order.  If no details could be fetched and normalised it
    writes nothing and ends with status 1; otherwise it dumps the monsters
    it got, in that order, and ends with status 0 when the dump completes
    and with status 1, the file left holding what had been written, when
    the dump raises. *)
Theorem small_catalog_run (c : Z) (sums : list MonsterSummary) (st : State) :
  file_exists "monsters.json" st = false →
  "monsters.json" ∉ unwritable st →
  remote st (length (sent st)) catalog_url = Body (catalog_body c sums) →
  sums ≠ [] →
  (length sums < 5)%nat →
  ∃ rs st3,
    outcomes sums (after_new_list sums (after_request catalog_url st)) = (rs, st3)
    ∧ sent st3 = (sent st ++ catalog_url :: (full_url ∘ url <$> sums))%list
    ∧ main st =
        match successes rs with
        | [] => (1, st3)
        | ms =>
            match dump_fault st "monsters.json" (encode_monsters ms) with
            | Completes =>
                (0, after_write "monsters.json" (encode_monsters ms) st3)
            | Fails n e =>
                (1, after_write "monsters.json"
                      (String.substring 0 n (encode_monsters ms)) st3)
            end
        end.
Proof.
  intros Hex Hw Hcat Hne Hlen.
  set (st1 := after_new_list sums (after_request catalog_url st)).
  exists (outcomes sums st1).1, (outcomes sums st1).2.
  split; [by destruct (outcomes sums st1)|].
  split.
  { rewrite outcomes_world. simpl. by rewrite <-app_assoc. }
  unfold main. rewrite Hex. unfold run_stages.
  unfold mbind, M_bind at 1. unfold fetch_monsters_task.
  unfold mbind, M_bind at 1. cbn [ctx_limit].
  rewrite (fetch_monsters_list_catalog None c sums st Hcat).
  unfold mret, M_ret at 1. unfold mbind, M_bind at 1.
  rewrite (select_task_short _ (MockTI (JList (MonsterSummary_dump <$> sums))) sums)
    by (done || (simpl; lia)).
  fold st1. unfold mbind, M_bind at 1.
  rewrite (enricher_on_dumps _ (MockTI (JList (MonsterSummary_dump <$> sums))) sums)
    by done.
  assert (unwritable (outcomes sums st1).2 = unwritable st) as Hu
    by (by rewrite outcomes_world).
  assert (dump_fault (outcomes sums st1).2 = dump_fault st) as Hf
    by (by rewrite outcomes_world).
  destruct (successes (outcomes sums st1).1) as [|m ms] eqn:Hs.
  - unfold save_monsters_task, mbind, M_bind. by simpl.
  - rewrite (save_task_on_dumps _ (MockTI (JList (Monster_dump <$> m :: ms))) (m :: ms))
      by done.
    simpl. rewrite save_monsters_to_json_outcome.
    rewrite bool_decide_eq_false_2 by (by rewrite Hu). rewrite Hf.
    by destruct (dump_fault st "monsters.json" (encode_monsters (m :: ms))).
Qed.

Lemma fetch_task_world (context : Context) (st : State) :
  (fetch_monsters_task context st).2 = after_request catalog_url st.
Proof.
  unfold fetch_monsters_task, fetch_monsters_list, rewrap_request, mbind, M_bind,
    http_get, lift. fold catalog_url.
  destruct (remote st _ _) as [|body]; [done|].
  destruct (APIResponse_of body) as [r|[]]; try done.
  by destruct (ctx_limit context).
Qed.

Lemma fetch_task_output (context : Context) (d : json) (st st' : State) :
  fetch_monsters_task context st = (Ok d, st') →
  ∃ l, d = JList (MonsterSummary_dump <$> l).
Proof.
  unfold fetch_monsters_task. intros (l & st1 & _ & H)%bind_Ok.
  injection H as <- _. by exists l.
Qed.

Lemma save_task_sent (context : Context) (st : State) :
  sent (save_monsters_task context st).2 = sent st.
Proof.
  unfold save_monsters_task. unfold mbind, M_bind at 1. unfold get_ti.
  destruct (ctx_ti context) as [ti|]; [|done]. simpl.
  destruct (negb _); [done|]. unfold mbind, M_bind at 1. unfold lift at 1.
  destruct (result_bind _ _ _ _) as [ms|e]; [|done].
  rewrite save_monsters_to_json_outcome. case_bool_decide; [done|].
  by destruct (dump_fault st _ _).
Qed.

Lemma run_stages_sent (st : State) :
  ∃ extra, sent (run_stages st).2 = (sent st ++ extra)%list
           ∧ (length extra ≤ 6)%nat.
Proof.
  unfold run_stages. unfold mbind, M_bind at 1.
  pose proof (fetch_task_world (mkContext None None None None) st) as Hw.
  destruct (fetch_monsters_task _ st) as [[d1|e] st1] eqn:F; simpl in Hw; subst st1;
    [|exists [catalog_url]; split; [done|simpl; lia]].
  apply fetch_task_output in F as [l ->].
  destruct l as [|s l].
  { exists [catalog_url]. split; [done|simpl; lia]. }
  destruct (select_task_selection
              (mkContext None (Some 5) None
                 (Some (MockTI (JList (MonsterSummary_dump <$> s :: l)))))
              (MockTI (JList (MonsterSummary_dump <$> s :: l))) (s :: l)
              (after_request catalog_url st))
    as (sel & st2 & Hsel & Hlen & _ & _ & Hsent); [done|done|done|simpl; lia|].
  unfold mbind, M_bind at 1. rewrite Hsel.
  assert (sel ≠ []) as Hne by (intros ->; simpl in Hlen; lia).
  unfold mbind, M_bind at 1.
  rewrite (enricher_on_dumps _ (MockTI (JList (MonsterSummary_dump <$> sel))) sel)
    by done.
  rewrite save_task_sent, outcomes_world. simpl. rewrite Hsent. simpl.
  exists (catalog_url :: (full_url ∘ url <$> sel)). split.
  - by rewrite <-app_assoc.
  - simpl. rewrite length_fmap, Hlen. simpl. lia.
Qed.

(** X18: a driver run sends at most six requests, one for the catalog and
    at most five for details, and none at all when [monsters.json]
    exists. *)
Theorem run_sends_at_most_six_requests (st : State) :
  (∃ extra, sent (main st).2 = (sent st ++ extra)%list
            ∧ (length extra ≤ 6)%nat)
  ∧ (file_exists "monsters.json" st = true → sent (main st).2 = sent st).
Proof.
  unfold main. destruct (file_exists "monsters.json" st).
  - split; [|done]. exists []. split; [by rewrite app_nil_r|simpl; lia].
  - split; [|done]. destruct (run_stages_sent st) as (extra & H & Hlen).
    exists extra. by destruct (run_stages st) as [[x|e] st'].
Qed.

End Pipeline.

(** ** The statements on the fixtures *)

(** *** Normalisation *)

Lemma armor_class_zero_is_dropped_witness :
  dict_get "armor_class"
    [("name", JStr "Goblin"); ("hit_points", JInt 7); ("armor_class", JInt 0)]
    = Some (JInt 0)
  ∧ (process_monster_data decimal_str_as_int
       (JDict [("name", JStr "Goblin"); ("hit_points", JInt 7);
               ("armor_class", JInt 0)])
     = process_monster_data decimal_str_as_int
         (JDict (dict_remove "armor_class"
                   [("name", JStr "Goblin"); ("hit_points", JInt 7);
                    ("armor_class", JInt 0)]))
     ∧ ∀ m, process_monster_data decimal_str_as_int
              (JDict [("name", JStr "Goblin"); ("hit_points", JInt 7);
                      ("armor_class", JInt 0)]) = Ok m →
            armor_class m = None).
Proof.
  split; [reflexivity|].
  apply (armor_class_zero_is_dropped decimal_str_as_int). reflexivity.
Defined.

Example armor_class_zero_example :
  process_monster_data decimal_str_as_int
    (JDict [("name", JStr "Goblin"); ("hit_points", JInt 7); ("armor_class", JInt 0)])
  = Ok (mkMonster "Goblin" (Some 7) None []).
Proof. reflexivity. Qed.

(** C3 fails as stated: a list whose first entry is the number 15 is none
    of the three accepted shapes, and the payload that is normalised
    without the field is not normalised with it. *)
Lemma list_of_numbers_raises :
  process_monster_data decimal_str_as_int
    (JDict [("name", JStr "Goblin"); ("armor_class", JList [JInt 15])])
  = Raise (Exception_ "Failed to process monster data" AttributeError)
  ∧ process_monster_data decimal_str_as_int (JDict [("name", JStr "Goblin")])
    = Ok (mkMonster "Goblin" None None []).
Proof. split; reflexivity. Qed.

Lemma unsupported_armor_class_shape_witness :
  dict_get "armor_class" [("name", JStr "Knight"); ("armor_class", JStr "plate")]
    = Some (JStr "plate")
  ∧ (process_monster_data decimal_str_as_int
       (JDict [("name", JStr "Knight"); ("armor_class", JStr "plate")])
     = process_monster_data decimal_str_as_int
         (JDict (dict_remove "armor_class"
                   [("name", JStr "Knight"); ("armor_class", JStr "plate")]))
     ∧ ∀ m, process_monster_data decimal_str_as_int
              (JDict [("name", JStr "Knight"); ("armor_class", JStr "plate")])
            = Ok m → armor_class m = None)
  ∧ ∃ e, process_monster_data decimal_str_as_int
           (JDict [("name", JStr "Goblin"); ("armor_class", JList [JInt 15])])
         = Raise (Exception_ "Failed to process monster data" e).
Proof.
  split; [reflexivity|]. split.
  - apply (proj1 (unsupported_armor_class_shape decimal_str_as_int
                    [("name", JStr "Knight"); ("armor_class", JStr "plate")]
                    (JStr "plate") eq_refl)); reflexivity.
  - apply (proj2 (unsupported_armor_class_shape decimal_str_as_int
                    [("name", JStr "Goblin"); ("armor_class", JList [JInt 15])]
                    (JList [JInt 15]) eq_refl) (JInt 15) []); reflexivity.
Defined.

Lemma hit_points_zero_and_absent_witness :
  dict_get "name" [("name", JStr "Husk"); ("hit_points", JInt 0)]
    = Some (JStr "Husk")
  ∧ dict_get "hit_points" [("name", JStr "Husk"); ("hit_points", JInt 0)]
    = Some (JInt 0)
  ∧ process_monster_data decimal_str_as_int
      (JDict [("name", JStr "Husk"); ("hit_points", JInt 0)])
    = Ok (mkMonster "Husk" (Some 0) None [])
  ∧ (∀ m, process_monster_data decimal_str_as_int
            (JDict [("name", JStr "Husk"); ("hit_points", JInt 0)]) = Ok m →
          hit_points m = Some 0)
  ∧ dict_get "hit_points" [("name", JStr "Spirit"); ("hit_points", JNull)]
    = Some JNull
  ∧ process_monster_data decimal_str_as_int
      (JDict [("name", JStr "Spirit"); ("hit_points", JNull)])
    = Ok (mkMonster "Spirit" None None [])
  ∧ dict_get "hit_points" [("name", JStr "Ghost")] = None
  ∧ process_monster_data decimal_str_as_int (JDict [("name", JStr "Ghost")])
    = Ok (mkMonster "Ghost" None None []).
Proof.
  split; [reflexivity|]. split; [reflexivity|]. split.
  { apply (proj1 (proj1 (proj2 (proj2 (proj2
      (hit_points_zero_and_absent decimal_str_as_int
         [("name", JStr "Husk"); ("hit_points", JInt 0)]))))
      "Husk" eq_refl eq_refl eq_refl)).
    reflexivity. }
  split.
  { apply (proj2 (proj1 (hit_points_zero_and_absent decimal_str_as_int
                    [("name", JStr "Husk"); ("hit_points", JInt 0)]) eq_refl)). }
  split; [reflexivity|]. split.
  { apply (proj1 (proj2 (proj1 (proj2 (proj2 (proj2
      (hit_points_zero_and_absent decimal_str_as_int
         [("name", JStr "Spirit"); ("hit_points", JNull)]))))
      "Spirit" eq_refl eq_refl eq_refl))).
    reflexivity. }
  split; [reflexivity|].
  apply (proj2 (proj2 (proj1 (proj2 (proj2 (proj2
    (hit_points_zero_and_absent decimal_str_as_int [("name", JStr "Ghost")]))))
    "Ghost" eq_refl eq_refl eq_refl))).
  reflexivity.
Defined.

Example hit_points_zero_example :
  process_monster_data decimal_str_as_int
    (JDict [("name", JStr "Husk"); ("hit_points", JInt 0)])
  = Ok (mkMonster "Husk" (Some 0) None [])
  ∧ process_monster_data decimal_str_as_int
      (JDict [("name", JStr "Spirit"); ("hit_points", JNull)])
    = Ok (mkMonster "Spirit" None None [])
  ∧ process_monster_data decimal_str_as_int (JDict [("name", JStr "Ghost")])
    = Ok (mkMonster "Ghost" None None []).
Proof. repeat split. Qed.

Lemma armor_class_shape_coverage_witness :
  dict_get "armor_class"
    [("name", JStr "Dragon");
     ("armor_class", JList [JDict [("type", JStr "natural"); ("value", JInt 18)]])]
    = Some (JList [JDict [("type", JStr "natural"); ("value", JInt 18)]])
  ∧ dict_get "value" [("type", JStr "natural"); ("value", JInt 18)]
    = Some (JInt 18)
  ∧ process_monster_data decimal_str_as_int
      (JDict [("name", JStr "Dragon");
              ("armor_class",
               JList [JDict [("type", JStr "natural"); ("value", JInt 18)]])])
    = set_armor_class (Some 18) <$>
        process_monster_data decimal_str_as_int
          (JDict (dict_remove "armor_class"
                    [("name", JStr "Dragon");
                     ("armor_class",
                      JList [JDict [("type", JStr "natural");
                                    ("value", JInt 18)]])])).
Proof.
  split; [reflexivity|]. split; [reflexivity|].
  apply (proj1 (armor_class_shape_coverage decimal_str_as_int
                  [("name", JStr "Dragon");
                   ("armor_class",
                    JList [JDict [("type", JStr "natural"); ("value", JInt 18)]])])
               [("type", JStr "natural"); ("value", JInt 18)] [] 18);
    reflexivity.
Defined.

Example goblin_is_normalised :
  process_monster_data decimal_str_as_int goblin_payload = Ok goblin.
Proof. reflexivity. Qed.

(** *** The sampler *)

(** C6 fails as stated: an empty input and the count -1 give an error, not
    an empty list. *)
Lemma negative_count_raises :
  heap (test_world ∅ {[0%nat := []]}) !! 0%nat = Some []
  ∧ (select_random_monsters 0%nat (-1) (test_world ∅ {[0%nat := []]})).1
    = Raise (ValueError "Sample larger than population or is negative").
Proof. split; reflexivity. Qed.

Lemma select_random_cardinality_witness :
  heap (test_world ∅ {[0%nat := [goblin_summary; skeleton_summary; dragon_summary]]})
    !! 0%nat = Some [goblin_summary; skeleton_summary; dragon_summary]
  ∧ 0 ≤ 2
  ∧ ∃ r' st' selected,
      select_random_monsters 0%nat 2
        (test_world ∅ {[0%nat := [goblin_summary; skeleton_summary; dragon_summary]]})
      = (Ok r', st')
      ∧ heap st' !! r' = Some selected
      ∧ length selected
        = Nat.min (length [goblin_summary; skeleton_summary; dragon_summary])
                  (Z.to_nat 2)
      ∧ selected ⊆+ [goblin_summary; skeleton_summary; dragon_summary]
      ∧ (NoDup (index <$> [goblin_summary; skeleton_summary; dragon_summary]) →
         NoDup (index <$> selected))
      ∧ ([goblin_summary; skeleton_summary; dragon_summary] = [] → selected = []).
Proof.
  split; [reflexivity|]. split; [lia|].
  apply select_random_cardinality; [reflexivity|lia].
Defined.

Lemma select_random_short_returns_input_witness :
  heap (test_world ∅ {[0%nat := [goblin_summary]]}) !! 0%nat = Some [goblin_summary]
  ∧ Z.of_nat (length [goblin_summary]) < 5
  ∧ select_random_monsters 0%nat 5 (test_world ∅ {[0%nat := [goblin_summary]]})
    = (Ok 0%nat, test_world ∅ {[0%nat := [goblin_summary]]})
  ∧ heap (test_world ∅ {[0%nat := [goblin_summary]]}) !! 0%nat
    = Some [goblin_summary].
Proof.
  split; [reflexivity|]. split; [simpl; lia|].
  apply select_random_short_returns_input; [reflexivity|simpl; lia].
Defined.

(** *** The stages *)

Lemma stages_need_upstream_data_witness :
  ctx_ti (mkContext None None None (Some (MockTI JNull))) = Some (MockTI JNull)
  ∧ truthy (MockTI JNull "fetch_monsters") = false
  ∧ select_random_monsters_task (mkContext None None None (Some (MockTI JNull)))
      (test_world ∅ ∅)
    = (Raise (ValueError "No monster data received from fetch_monsters task"),
       test_world ∅ ∅)
  ∧ fetch_monster_details_task decimal_str_as_int
      (mkContext None None None (Some (MockTI (JList [])))) (test_world ∅ ∅)
    = (Raise (ValueError
         "No selected monsters data received from select_random_monsters task"),
       test_world ∅ ∅)
  ∧ save_monsters_task decimal_str_as_int
      (mkContext None None None (Some (MockTI JNull))) (test_world ∅ ∅)
    = (Raise (ValueError "No monster data received from fetch_monster_details task"),
       test_world ∅ ∅).
Proof.
  split; [reflexivity|]. split; [reflexivity|]. split; [|split].
  - apply (proj1 (stages_need_upstream_data decimal_str_as_int
                    (mkContext None None None (Some (MockTI JNull)))
                    (MockTI JNull) (test_world ∅ ∅) eq_refl)).
    reflexivity.
  - apply (proj1 (proj2 (stages_need_upstream_data decimal_str_as_int
                    (mkContext None None None (Some (MockTI (JList []))))
                    (MockTI (JList [])) (test_world ∅ ∅) eq_refl))).
    reflexivity.
  - apply (proj1 (proj2 (proj2 (stages_need_upstream_data decimal_str_as_int
                    (mkContext None None None (Some (MockTI JNull)))
                    (MockTI JNull) (test_world ∅ ∅) eq_refl)))).
    reflexivity.
Defined.

Lemma enricher_drops_failures_witness :
  ctx_ti (mkContext None None None
            (Some (MockTI (JList (MonsterSummary_dump <$>
                                    [goblin_summary; skeleton_summary])))))
    = Some (MockTI (JList (MonsterSummary_dump <$> [goblin_summary; skeleton_summary])))
  ∧ [goblin_summary; skeleton_summary] ≠ []
  ∧ ∃ rs st',
      outcomes decimal_str_as_int [goblin_summary; skeleton_summary] (test_world ∅ ∅)
        = (rs, st')
      ∧ length rs = length [goblin_summary; skeleton_summary]
      ∧ fetch_monster_details_task decimal_str_as_int
          (mkContext None None None
             (Some (MockTI (JList (MonsterSummary_dump <$>
                                     [goblin_summary; skeleton_summary])))))
          (test_world ∅ ∅)
        = (Ok (JList (Monster_dump <$> successes rs)), st')
      ∧ sent st'
        = (sent (test_world ∅ ∅)
           ++ (full_url ∘ url <$> [goblin_summary; skeleton_summary]))%list
      ∧ files st' = files (test_world ∅ ∅).
Proof.
  split; [reflexivity|]. split; [discriminate|].
  apply (enricher_drops_failures decimal_str_as_int _
           (MockTI (JList (MonsterSummary_dump <$> [goblin_summary; skeleton_summary]))));
    [reflexivity|discriminate|reflexivity].
Defined.

(** Two summaries, the detail fetch of the second fails: one monster comes
    out. *)
Example partial_failure :
  (fetch_monster_details_task decimal_str_as_int
     (mkContext None None None
        (Some (MockTI (JList (MonsterSummary_dump <$>
                                [goblin_summary; skeleton_summary])))))
     (test_world ∅ ∅)).1
  = Ok (JList [Monster_dump goblin]).
Proof. reflexivity. Qed.

(** *** The persister *)

(** C2 fails as stated: the existing file is written over. *)
Lemma existing_output_is_replaced :
  files (test_world {["monsters.json" := "[]"]} ∅) !! "monsters.json" = Some "[]"
  ∧ (save_monsters_to_json [goblin] "monsters.json"
       (test_world {["monsters.json" := "[]"]} ∅)).1 = Ok "monsters.json"
  ∧ files (save_monsters_to_json [goblin] "monsters.json"
             (test_world {["monsters.json" := "[]"]} ∅)).2 !! "monsters.json"
    = Some (encode_monsters [goblin])
  ∧ encode_monsters [goblin] ≠ "[]".
Proof. repeat split; try reflexivity. discriminate. Qed.

Lemma persister_overwrites_witness :
  files (test_world {["monsters.json" := "[]"]} ∅) !! "monsters.json" = Some "[]"
  ∧ ("monsters.json" ∉ unwritable (test_world {["monsters.json" := "[]"]} ∅))
  ∧ (∃ written,
       (save_monsters_to_json [goblin] "monsters.json"
          (test_world {["monsters.json" := "[]"]} ∅)).2
       = after_write "monsters.json" written
           (test_world {["monsters.json" := "[]"]} ∅)
       ∧ files (save_monsters_to_json [goblin] "monsters.json"
                  (test_world {["monsters.json" := "[]"]} ∅)).2 !! "monsters.json"
         = Some written
       ∧ String.prefix written (encode_monsters [goblin]) = true
       ∧ written = encode_monsters [goblin]
       ∧ (save_monsters_to_json [goblin] "monsters.json"
            (test_world {["monsters.json" := "[]"]} ∅)).1 = Ok "monsters.json")
  ∧ (∃ written,
       (save_monsters_to_json [goblin] "monsters.json"
          (faulty_world {["monsters.json" := "[]"]})).2
       = after_write "monsters.json" written
           (faulty_world {["monsters.json" := "[]"]})
       ∧ files (save_monsters_to_json [goblin] "monsters.json"
                  (faulty_world {["monsters.json" := "[]"]})).2 !! "monsters.json"
         = Some written
       ∧ String.prefix written (encode_monsters [goblin]) = true
       ∧ written = String.substring 0 4 (encode_monsters [goblin])
       ∧ (save_monsters_to_json [goblin] "monsters.json"
            (faulty_world {["monsters.json" := "[]"]})).1
         = Raise (Exception_ "Failed to save monsters to JSON" UnicodeEncodeError)).
Proof.
  split; [reflexivity|]. split; [apply not_elem_of_empty|]. split.
  - apply (persister_overwrites [goblin] "monsters.json" "[]"
             (test_world {["monsters.json" := "[]"]} ∅));
      [reflexivity|apply not_elem_of_empty].
  - apply (persister_overwrites [goblin] "monsters.json" "[]"
             (faulty_world {["monsters.json" := "[]"]}));
      [reflexivity|apply not_elem_of_empty].
Defined.

(** *** The driver *)

Lemma driver_idempotent_witness :
  file_exists "monsters.json" (test_world {["monsters.json" := "[]"]} ∅) = true
  ∧ main decimal_str_as_int (test_world {["monsters.json" := "[]"]} ∅)
    = (0, test_world {["monsters.json" := "[]"]} ∅)
  ∧ main decimal_str_as_int (test_world ∅ ∅)
    = (0, (main decimal_str_as_int (test_world ∅ ∅)).2)
  ∧ file_exists "monsters.json" (main decimal_str_as_int (test_world ∅ ∅)).2 = true
  ∧ main decimal_str_as_int (main decimal_str_as_int (test_world ∅ ∅)).2
    = (0, (main decimal_str_as_int (test_world ∅ ∅)).2).
Proof.
  split; [reflexivity|]. split.
  { apply (proj1 (driver_idempotent decimal_str_as_int
                    (test_world {["monsters.json" := "[]"]} ∅))).
    reflexivity. }
  split; [reflexivity|].
  apply (proj2 (driver_idempotent decimal_str_as_int (test_world ∅ ∅))).
  reflexivity.
Defined.

(** A whole run against the test remote: the catalog has two entries, fewer
    than the five asked for, so both are kept; the skeleton cannot be
    fetched and is dropped; the goblin is written out. *)
Example first_run_writes_the_goblin :
  (main decimal_str_as_int (test_world ∅ ∅)).1 = 0
  ∧ files (main decimal_str_as_int (test_world ∅ ∅)).2 !! "monsters.json"
    = Some (encode_monsters [goblin])
  ∧ sent (main decimal_str_as_int (test_world ∅ ∅)).2
    = ["https://www.dnd5eapi.co/api/2014/monsters";
       "https://www.dnd5eapi.co/api/monsters/goblin";
       "https://www.dnd5eapi.co/api/monsters/skeleton"].
Proof. repeat split. Qed.

(** *** Further statements on the fixtures *)

Lemma fetch_list_is_prefix_witness :
  remote (test_world ∅ ∅) (length (sent (test_world ∅ ∅))) catalog_url
    = Body (catalog_body 2 [goblin_summary; skeleton_summary])
  ∧ ∃ out,
      fetch_monsters_list decimal_str_as_int (Some 1) (test_world ∅ ∅)
        = (Ok out, after_request catalog_url (test_world ∅ ∅))
      ∧ out `prefix_of` [goblin_summary; skeleton_summary]
      ∧ (Some 1 = None → out = [goblin_summary; skeleton_summary])
      ∧ (∀ n, Some 1 = Some n → 0 ≤ n →
           out = take (Z.to_nat n) [goblin_summary; skeleton_summary]
           ∧ length out
             = Nat.min (Z.to_nat n) (length [goblin_summary; skeleton_summary]))
      ∧ (∀ n, Some 1 = Some n → n < 0 →
           length out
           = (length [goblin_summary; skeleton_summary] - Z.to_nat (- n))%nat).
Proof.
  split; [reflexivity|].
  apply (fetch_list_is_prefix decimal_str_as_int (Some 1) 2 [goblin_summary; skeleton_summary]).
  reflexivity.
Defined.

Example limit_one_keeps_the_first :
  (fetch_monsters_list decimal_str_as_int (Some 1) (test_world ∅ ∅)).1 = Ok [goblin_summary]
  ∧ (fetch_monsters_list decimal_str_as_int (Some (-1)) (test_world ∅ ∅)).1 = Ok [goblin_summary]
  ∧ (fetch_monsters_list decimal_str_as_int None (test_world ∅ ∅)).1
    = Ok [goblin_summary; skeleton_summary].
Proof. repeat split. Qed.

Lemma fetch_list_failures_witness :
  remote offline_world (length (sent offline_world)) catalog_url = Failed
  ∧ fetch_monsters_list decimal_str_as_int None offline_world
    = (Raise (Exception_ "Failed to fetch monsters list" RequestException),
       after_request catalog_url offline_world).
Proof.
  split; [reflexivity|].
  apply (proj1 (fetch_list_failures decimal_str_as_int None offline_world)). reflexivity.
Defined.

Lemma fetch_details_one_request_witness :
  remote (test_world ∅ ∅) (length (sent (test_world ∅ ∅)))
    (full_url "/api/monsters/goblin") = Body goblin_payload
  ∧ (fetch_monster_details "/api/monsters/goblin" (test_world ∅ ∅)).1
    = Ok goblin_payload
  ∧ (fetch_monster_details "/api/monsters/goblin" (test_world ∅ ∅)).2
    = after_request "https://www.dnd5eapi.co/api/monsters/goblin" (test_world ∅ ∅).
Proof.
  split; [reflexivity|]. split.
  - apply (proj1 (proj2 (proj2
      (fetch_details_one_request "/api/monsters/goblin" (test_world ∅ ∅))))).
    reflexivity.
  - apply (proj1 (fetch_details_one_request "/api/monsters/goblin" (test_world ∅ ∅))).
Defined.

Lemma persister_failure_witness :
  "monsters.json" ∈ unwritable read_only_world
  ∧ save_monsters_to_json [goblin] "monsters.json" read_only_world
    = (Raise (Exception_ "Failed to save monsters to JSON" OSError),
       read_only_world).
Proof.
  split; [simpl; apply elem_of_singleton; reflexivity|].
  apply persister_failure. simpl. apply elem_of_singleton. reflexivity.
Defined.

Lemma persister_frame_witness :
  "notes.txt" ≠ "monsters.json"
  ∧ files (save_monsters_to_json [goblin] "monsters.json"
             (test_world {["notes.txt" := "keep"]} ∅)).2 !! "notes.txt"
    = files (test_world {["notes.txt" := "keep"]} ∅) !! "notes.txt".
Proof.
  split; [discriminate|].
  apply (proj1 (persister_frame [goblin] "monsters.json"
                  (test_world {["notes.txt" := "keep"]} ∅))).
  discriminate.
Defined.

Lemma process_rejects_non_objects_witness :
  is_dict (JList [JStr "actions"]) = false
  ∧ ∃ e, process_monster_data decimal_str_as_int (JList [JStr "actions"])
         = Raise (Exception_ "Failed to process monster data" e).
Proof.
  split; [reflexivity|].
  apply process_rejects_non_objects. reflexivity.
Defined.

Lemma name_is_text_or_rejected_witness :
  dict_get "name" [("name", JInt 7)] = Some (JInt 7)
  ∧ (∀ t, JInt 7 ≠ JStr t)
  ∧ (∃ e, process_monster_data decimal_str_as_int (JDict [("name", JInt 7)])
          = Raise (Exception_ "Failed to process monster data" e))
  ∧ dict_get "name" [("name", JStr "Ghost"); ("size", JStr "Medium")]
    = Some (JStr "Ghost")
  ∧ process_monster_data decimal_str_as_int
      (JDict [("name", JStr "Ghost"); ("size", JStr "Medium")])
    = Ok (mkMonster "Ghost" None None [])
  ∧ dict_get "name" [("size", JStr "Medium")] = None
  ∧ process_monster_data decimal_str_as_int (JDict [("size", JStr "Medium")])
    = Ok (mkMonster "" None None []).
Proof.
  split; [reflexivity|]. split; [discriminate|]. split.
  { apply (proj1 (proj2 (proj2 (name_is_text_or_rejected decimal_str_as_int
                           [("name", JInt 7)]))) (JInt 7));
      [reflexivity|discriminate]. }
  split; [reflexivity|]. split.
  { apply (proj1 (proj1 (proj2 (proj2 (proj2
      (name_is_text_or_rejected decimal_str_as_int
         [("name", JStr "Ghost"); ("size", JStr "Medium")]))))
      eq_refl eq_refl eq_refl) "Ghost").
    reflexivity. }
  split; [reflexivity|].
  apply (proj2 (proj1 (proj2 (proj2 (proj2
    (name_is_text_or_rejected decimal_str_as_int [("size", JStr "Medium")]))))
    eq_refl eq_refl eq_refl)).
  reflexivity.
Defined.

Lemma actions_are_mapped_in_order_witness :
  dict_get "actions" ogre_payload
    = Some (JList (JDict <$> [[("name", JStr "Club"); ("desc", JStr "smash")];
                              [("name", JStr "Javelin")]]))
  ∧ mapM entry_action [[("name", JStr "Club"); ("desc", JStr "smash")];
                       [("name", JStr "Javelin")]]
    = Some [mkAction "Club" "smash"; mkAction "Javelin" ""]
  ∧ extract_actions (JDict ogre_payload)
    = Ok [mkAction "Club" "smash"; mkAction "Javelin" ""].
Proof.
  split; [reflexivity|]. split; [reflexivity|].
  apply (proj1 (actions_are_mapped_in_order decimal_str_as_int ogre_payload
                  [[("name", JStr "Club"); ("desc", JStr "smash")];
                   [("name", JStr "Javelin")]] eq_refl)
               [mkAction "Club" "smash"; mkAction "Javelin" ""]).
  reflexivity.
Defined.

Lemma persist_stage_writes_handoff_witness :
  ctx_ti (mkContext None None (Some "out.json")
            (Some (MockTI (JList (Monster_dump <$> [goblin])))))
    = Some (MockTI (JList (Monster_dump <$> [goblin])))
  ∧ [goblin] ≠ []
  ∧ ("out.json" ∉ unwritable (test_world ∅ ∅))
  ∧ save_monsters_task decimal_str_as_int
      (mkContext None None (Some "out.json")
         (Some (MockTI (JList (Monster_dump <$> [goblin])))))
      (test_world ∅ ∅)
    = (Ok "out.json",
       after_write "out.json" (encode_monsters [goblin]) (test_world ∅ ∅))
  ∧ save_monsters_task decimal_str_as_int
      (mkContext None None (Some "out.json")
         (Some (MockTI (JList (Monster_dump <$> [goblin])))))
      (faulty_world ∅)
    = (Raise (Exception_ "Failed to save monsters to JSON" UnicodeEncodeError),
       after_write "out.json" (String.substring 0 4 (encode_monsters [goblin]))
         (faulty_world ∅)).
Proof.
  split; [reflexivity|]. split; [discriminate|].
  split; [apply not_elem_of_empty|]. split.
  - apply (persist_stage_writes_handoff decimal_str_as_int
             (mkContext None None (Some "out.json")
                (Some (MockTI (JList (Monster_dump <$> [goblin])))))
             (MockTI (JList (Monster_dump <$> [goblin]))) [goblin]
             (test_world ∅ ∅));
      [reflexivity|discriminate|reflexivity|apply not_elem_of_empty].
  - apply (persist_stage_writes_handoff decimal_str_as_int
             (mkContext None None (Some "out.json")
                (Some (MockTI (JList (Monster_dump <$> [goblin])))))
             (MockTI (JList (Monster_dump <$> [goblin]))) [goblin]
             (faulty_world ∅));
      [reflexivity|discriminate|reflexivity|apply not_elem_of_empty].
Defined.

Lemma sample_is_a_new_list_witness :
  heap (test_world ∅ {[0%nat := [goblin_summary; skeleton_summary]]}) !! 0%nat
    = Some [goblin_summary; skeleton_summary]
  ∧ 0 ≤ 2 ≤ Z.of_nat (length [goblin_summary; skeleton_summary])
  ∧ ∃ r' st' selected,
      select_random_monsters 0%nat 2
        (test_world ∅ {[0%nat := [goblin_summary; skeleton_summary]]})
      = (Ok r', st')
      ∧ r' ≠ 0%nat
      ∧ heap st' !! 0%nat = Some [goblin_summary; skeleton_summary]
      ∧ heap st' !! r' = Some selected
      ∧ (2 = Z.of_nat (length [goblin_summary; skeleton_summary]) →
         selected ≡ₚ [goblin_summary; skeleton_summary]).
Proof.
  split; [reflexivity|]. split; [simpl; lia|].
  apply sample_is_a_new_list; [reflexivity|simpl; lia].
Defined.

Lemma sampler_stage_keeps_short_input_witness :
  ctx_ti (mkContext None None None (Some (MockTI catalog_results)))
    = Some (MockTI catalog_results)
  ∧ [goblin_summary; skeleton_summary] ≠ []
  ∧ MockTI catalog_results "fetch_monsters"
    = JList (MonsterSummary_dump <$> [goblin_summary; skeleton_summary])
  ∧ Z.of_nat (length [goblin_summary; skeleton_summary])
    < default 5 (ctx_count (mkContext None None None (Some (MockTI catalog_results))))
  ∧ select_random_monsters_task
      (mkContext None None None (Some (MockTI catalog_results))) (test_world ∅ ∅)
    = (Ok (MockTI catalog_results "fetch_monsters"),
       after_new_list [goblin_summary; skeleton_summary] (test_world ∅ ∅)).
Proof.
  split; [reflexivity|]. split; [discriminate|]. split; [reflexivity|].
  split; [simpl; lia|].
  apply (proj1 (sampler_stage_keeps_short_input
                  (mkContext None None None (Some (MockTI catalog_results)))
                  (MockTI catalog_results) [goblin_summary; skeleton_summary]
                  (test_world ∅ ∅) eq_refl ltac:(discriminate) eq_refl
                  ltac:(simpl; lia))).
Defined.

Lemma sampler_stage_cardinality_witness :
  ctx_ti (mkContext None (Some 1) None (Some (MockTI catalog_results)))
    = Some (MockTI catalog_results)
  ∧ [goblin_summary; skeleton_summary] ≠ []
  ∧ 0 ≤ default 5 (ctx_count (mkContext None (Some 1) None
                                (Some (MockTI catalog_results))))
  ∧ ∃ selected st',
      select_random_monsters_task
        (mkContext None (Some 1) None (Some (MockTI catalog_results)))
        (test_world ∅ ∅)
      = (Ok (JList (MonsterSummary_dump <$> selected)), st')
      ∧ length selected
        = Nat.min (length [goblin_summary; skeleton_summary])
            (Z.to_nat (default 5 (ctx_count
               (mkContext None (Some 1) None (Some (MockTI catalog_results))))))
      ∧ selected ⊆+ [goblin_summary; skeleton_summary]
      ∧ files st' = files (test_world ∅ ∅) ∧ sent st' = sent (test_world ∅ ∅).
Proof.
  split; [reflexivity|]. split; [discriminate|]. split; [simpl; lia|].
  apply (sampler_stage_cardinality
           (mkContext None (Some 1) None (Some (MockTI catalog_results)))
           (MockTI catalog_results) [goblin_summary; skeleton_summary]);
    [reflexivity|discriminate|reflexivity|simpl; lia].
Defined.

Lemma enricher_stage_cardinality_witness :
  ctx_ti (mkContext None None None (Some (MockTI catalog_results)))
    = Some (MockTI catalog_results)
  ∧ [goblin_summary; skeleton_summary] ≠ []
  ∧ ∃ ms st',
      fetch_monster_details_task decimal_str_as_int
        (mkContext None None None (Some (MockTI catalog_results))) offline_world
      = (Ok (JList (Monster_dump <$> ms)), st')
      ∧ (length ms ≤ length [goblin_summary; skeleton_summary])%nat
      ∧ ((∀ i u, remote offline_world i u = Failed) → ms = []).
Proof.
  split; [reflexivity|]. split; [discriminate|].
  apply (enricher_stage_cardinality decimal_str_as_int
           (mkContext None None None (Some (MockTI catalog_results)))
           (MockTI catalog_results) [goblin_summary; skeleton_summary]);
    [reflexivity|discriminate|reflexivity].
Defined.

Lemma failed_run_effect_on_files_witness :
  main decimal_str_as_int (faulty_world {["notes.txt" := "keep"]})
    = (1, (main decimal_str_as_int (faulty_world {["notes.txt" := "keep"]})).2)
  ∧ (∀ p, p ≠ "monsters.json" →
          files (main decimal_str_as_int
                   (faulty_world {["notes.txt" := "keep"]})).2 !! p
          = files (faulty_world {["notes.txt" := "keep"]}) !! p)
  ∧ (files (main decimal_str_as_int (faulty_world {["notes.txt" := "keep"]})).2
     = files (faulty_world {["notes.txt" := "keep"]})
     ∨ ∃ ms n e,
         dump_fault (faulty_world {["notes.txt" := "keep"]}) "monsters.json"
           (encode_monsters ms) = Fails n e
         ∧ files (main decimal_str_as_int
                    (faulty_world {["notes.txt" := "keep"]})).2
           = <["monsters.json" := String.substring 0 n (encode_monsters ms)]>
               (files (faulty_world {["notes.txt" := "keep"]}))).
Proof.
  split; [reflexivity|].
  apply (failed_run_effect_on_files decimal_str_as_int
           (faulty_world {["notes.txt" := "keep"]})).
  reflexivity.
Defined.

(** A dump that raises leaves a cut-off [monsters.json] behind, and the
    next run takes the file for a finished output and does nothing. *)
Example cut_off_output_stops_the_next_run :
  (main decimal_str_as_int (faulty_world ∅)).1 = 1
  ∧ files (main decimal_str_as_int (faulty_world ∅)).2 !! "monsters.json"
    = Some (String.substring 0 4 (encode_monsters [goblin]))
  ∧ main decimal_str_as_int (main decimal_str_as_int (faulty_world ∅)).2
    = (0, (main decimal_str_as_int (faulty_world ∅)).2).
Proof. repeat split. Qed.

Lemma successful_run_writes_monsters_witness :
  file_exists "monsters.json" (test_world ∅ ∅) = false
  ∧ main decimal_str_as_int (test_world ∅ ∅)
    = (0, (main decimal_str_as_int (test_world ∅ ∅)).2)
  ∧ ∃ ms, ms ≠ []
          ∧ files (main decimal_str_as_int (test_world ∅ ∅)).2
            = <["monsters.json" := encode_monsters ms]> (files (test_world ∅ ∅)).
Proof.
  split; [reflexivity|]. split; [reflexivity|].
  apply (successful_run_writes_monsters decimal_str_as_int (test_world ∅ ∅));
    reflexivity.
Defined.

Lemma small_catalog_run_witness :
  file_exists "monsters.json" (test_world ∅ ∅) = false
  ∧ ("monsters.json" ∉ unwritable (test_world ∅ ∅))
  ∧ remote (test_world ∅ ∅) (length (sent (test_world ∅ ∅))) catalog_url
    = Body (catalog_body 2 [goblin_summary; skeleton_summary])
  ∧ [goblin_summary; skeleton_summary] ≠ []
  ∧ (length [goblin_summary; skeleton_summary] < 5)%nat
  ∧ ∃ rs st3,
      outcomes decimal_str_as_int [goblin_summary; skeleton_summary]
        (after_new_list [goblin_summary; skeleton_summary]
           (after_request catalog_url (test_world ∅ ∅))) = (rs, st3)
      ∧ sent st3
        = (sent (test_world ∅ ∅)
           ++ catalog_url
              :: (full_url ∘ url <$> [goblin_summary; skeleton_summary]))%list
      ∧ main decimal_str_as_int (test_world ∅ ∅)
        = match successes rs with
          | [] => (1, st3)
          | ms =>
              match dump_fault (test_world ∅ ∅) "monsters.json"
                      (encode_monsters ms) with
              | Completes =>
                  (0, after_write "monsters.json" (encode_monsters ms) st3)
              | Fails n e =>
                  (1, after_write "monsters.json"
                        (String.substring 0 n (encode_monsters ms)) st3)
              end
          end.
Proof.
  split; [reflexivity|]. split; [apply not_elem_of_empty|].
  split; [reflexivity|]. split; [discriminate|]. split; [simpl; lia|].
  apply (small_catalog_run decimal_str_as_int 2 [goblin_summary; skeleton_summary]);
    [reflexivity|apply not_elem_of_empty|reflexivity|discriminate|simpl; lia].
Defined.

Lemma run_sends_at_most_six_requests_witness :
  file_exists "monsters.json" (test_world {["monsters.json" := "[]"]} ∅) = true
  ∧ sent (main decimal_str_as_int (test_world {["monsters.json" := "[]"]} ∅)).2
    = sent (test_world {["monsters.json" := "[]"]} ∅)
  ∧ ∃ extra,
      sent (main decimal_str_as_int (test_world ∅ ∅)).2
        = (sent (test_world ∅ ∅) ++ extra)%list
      ∧ (length extra ≤ 6)%nat.
Proof.
  split; [reflexivity|]. split.
  - apply (proj2 (run_sends_at_most_six_requests decimal_str_as_int
                    (test_world {["monsters.json" := "[]"]} ∅))).
    reflexivity.
  - apply (proj1 (run_sends_at_most_six_requests decimal_str_as_int
                    (test_world ∅ ∅))).
Defined.
